(** * music-recomposer: segmentation, recomposition and batch transformation

    A shallow embedding of [src/style_composer.py] (class [StyleComposer])
    and [src/audio_generator.py] (class [AudioGenerator]).

    - Python [float] is IEEE binary64: Rocq's primitive [float].
    - Python [int] is [Z].
    - A NumPy 1-d array (a waveform, a phrase) is a [list] of samples; no
      code of the repository writes into an array in place.
    - A Python [list] object is mutable and lives in a store ([heap]).
    - The process-wide [random] module is an explicit generator state.
    - [librosa], [soundfile] and [os] are collaborators: their functions are
      parameters of the development.
    - The file system is the audio files, by path, and the rest of it (the
      directories), which only the collaborators look into: [os.makedirs]
      and [sf.write] succeed or raise as the collaborators decide on it.
    - [segment_length] is a float (the driver passes [2.0]) and [self.sr]
      an int (the default is [22050]).
    - [print] is left out: the console is not part of the state.

    [src/audio_manager.py] (class [AudioManager]) and the driver [main.py]
    are embedded the same way, [main] with the constructors it calls; of
    the analysis classes that [main] builds and never uses, only the
    constructors are embedded. Local lists that a function builds and
    only appends to ([audio_data], [generated_pieces]) are threaded as
    values. *)

From Stdlib Require Import ZArith List Floats Lia Bool Ascii.
From Stdlib Require Import DecimalString.
From stdpp Require Import gmap strings.
Import ListNotations.
Open Scope Z_scope.
Set Warnings "-inexact-float".

(** ** Python exceptions and results *)

Inductive exn : Type :=
| ValueError (msg : string)
| IndexError (msg : string)
| OverflowError (msg : string)
| TypeError (msg : string)
| ExternalError (msg : string).

Inductive result (A : Type) : Type :=
| Ok (a : A)
| Raise (e : exn).
Arguments Ok {A} a.
Arguments Raise {A} e.

Definition rbind {A B} (r : result A) (k : A -> result B) : result B :=
  match r with
  | Ok a => k a
  | Raise e => Raise e
  end.

Declare Scope result_scope.
Delimit Scope result_scope with result.
Notation "x <- c1 ;; c2" := (rbind c1 (fun x => c2))
  (at level 100, c1 at next level, right associativity) : result_scope.

(** ** Python numbers *)

(** [float(n)] for an int [n]: rounding to nearest even, [OverflowError]
    when the rounded value is not finite. *)
Definition Z2F (n : Z) : float := SF2Prim (binary_normalize prec emax n 0 false).

Definition py_float_of_int (n : Z) : result float :=
  let f := Z2F n in
  if is_infinity f then Raise (OverflowError "int too large to convert to float")
  else Ok f.

(** [x * n] for a float [x] and an int [n]. *)
Definition py_mul_float_int (x : float) (n : Z) : result float :=
  (f <- py_float_of_int n ;; Ok (x * f)%float)%result.

(** The integer [(-1)^s * m * 2^e] scaled to a quotient of integers. *)
Definition sf_num (s : bool) (m : positive) (e : Z) : Z :=
  cond_Zopp s (Z.pos m) * 2 ^ Z.max e 0.
Definition sf_den (e : Z) : Z := 2 ^ Z.max (- e) 0.

(** [int(x)]: truncation toward zero. *)
Definition py_int (x : float) : result Z :=
  match Prim2SF x with
  | S754_nan => Raise (ValueError "cannot convert float NaN to integer")
  | S754_infinity _ => Raise (OverflowError "cannot convert float infinity to integer")
  | S754_zero _ => Ok 0
  | S754_finite s m e => Ok (Z.quot (sf_num s m e) (sf_den e))
  end.

(** [math.floor(x)]: rounding toward minus infinity. *)
Definition py_floor (x : float) : result Z :=
  match Prim2SF x with
  | S754_nan => Raise (ValueError "cannot convert float NaN to integer")
  | S754_infinity _ => Raise (OverflowError "cannot convert float infinity to integer")
  | S754_zero _ => Ok 0
  | S754_finite s m e => Ok (Z.div (sf_num s m e) (sf_den e))
  end.

(** ** Python sequences *)

Definition py_len {A} (l : list A) : Z := Z.of_nat (length l).

(** Number of items of [range(start, stop, step)], [step <> 0]. *)
Definition range_len (start stop step : Z) : nat :=
  if 0 <? step then
    if start <? stop then Z.to_nat ((stop - start - 1) / step + 1) else 0%nat
  else
    if stop <? start then Z.to_nat ((start - stop - 1) / (- step) + 1) else 0%nat.

Definition py_range (start stop step : Z) : result (list Z) :=
  if step =? 0 then Raise (ValueError "range() arg 3 must not be zero")
  else Ok (map (fun k => start + Z.of_nat k * step) (seq 0 (range_len start stop step))).

(** A slice bound brought into [0 .. n] the way [l[lo:hi]] does. *)
Definition clamp_index (n i : Z) : Z :=
  if i <? 0 then Z.max (i + n) 0 else Z.min i n.

(** [l[lo:hi]] *)
Definition py_slice {A} (l : list A) (lo hi : Z) : list A :=
  let n := py_len l in
  let a := clamp_index n lo in
  let b := clamp_index n hi in
  firstn (Z.to_nat (b - a)) (skipn (Z.to_nat a) l).

(** [l[i]] *)
Definition py_getitem {A} (l : list A) (i : Z) : result A :=
  let n := py_len l in
  let j := if i <? 0 then i + n else i in
  if (0 <=? j) && (j <? n) then
    match nth_error l (Z.to_nat j) with
    | Some x => Ok x
    | None => Raise (IndexError "list index out of range")
    end
  else Raise (IndexError "list index out of range").

(** ** Python strings and paths *)

Definition ascii_lower (c : ascii) : ascii :=
  let n := nat_of_ascii c in
  if ((65 <=? n) && (n <=? 90))%nat then ascii_of_nat (n + 32) else c.

(** [s.lower()], on ASCII file names *)
Fixpoint py_lower (s : string) : string :=
  match s with
  | EmptyString => EmptyString
  | String c s' => String (ascii_lower c) (py_lower s')
  end.

(** [s.endswith(suffix)] *)
Definition py_endswith (s suffix : string) : bool :=
  let n := String.length s in
  let k := String.length suffix in
  ((k <=? n)%nat && String.eqb (String.substring (n - k) k s) suffix).

(** [s.startswith(p)] *)
Definition py_startswith (s p : string) : bool := String.prefix p s.

(** [os.path.join(a, b)] of [posixpath] *)
Definition os_path_join (a b : string) : string :=
  if py_startswith b "/" then b
  else if String.eqb a "" || py_endswith a "/" then (a ++ b)%string
  else (a ++ "/" ++ b)%string.

(** ** Collaborators *)

(** The process-wide generator of the [random] module, made explicit:
    [randbelow n] is [random._randbelow(n)], the draw behind
    [random.choice]; [random] is [random.random()]; [uniform a b] is
    [random.uniform(a, b)]. Each returns the draw and the next state. *)
Class RandomSource : Type := {
  rng_state : Type;
  randbelow : Z -> rng_state -> Z * rng_state;
  random : rng_state -> float * rng_state;
  uniform : float -> float -> rng_state -> float * rng_state
}.

(** What the [random] module documents of its draws: an index below [n],
    and [a <= N <= b] for [uniform(a, b)] with [a <= b]. *)
Class RandomSourceLaws `{RandomSource} : Prop := {
  randbelow_range : forall n g, 0 < n -> 0 <= fst (randbelow n g) < n;
  uniform_range : forall a b g,
    (a <=? b)%float = true ->
    (a <=? fst (uniform a b g))%float = true /\
    (fst (uniform a b g) <=? b)%float = true
}.

(** [librosa.effects], [librosa.load], [soundfile.write] and [os].
    [wav_encode y sr] is what [sf.write] stores for [y]; [wav_decode d sr]
    is what [librosa.load(path, sr=sr)] returns for a file holding [d].

    [os_state] is the file system besides the files: its directories.
    [makedirs path fs o] is [os.makedirs(path, exist_ok=True)] on the
    files [fs] and the rest [o]: the rest afterwards, or the error raised
    (a file is in the way, the name is empty, a parent cannot be written).
    [write_error path y sr fs o] is the error that [sf.write(path, y, sr)]
    raises there, if it raises: the error of opening the file (the
    directory is missing, the path is a directory, the extension names no
    format), raised before anything is written. [exists_besides path o]:
    [path] exists without being one of the files. [load_error path o] is
    what [librosa.load] raises for a path that is none of the files. *)
Class Externals : Type := {
  sample : Type;
  filedata : Type;
  pitch_shift : list sample -> Z -> float -> result (list sample);
  time_stretch : list sample -> float -> result (list sample);
  wav_encode : list sample -> Z -> filedata;
  wav_decode : filedata -> Z -> result (list sample);
  os_listdir : string -> gmap string filedata -> result (list string);
  os_state : Type;
  makedirs : string -> gmap string filedata -> os_state -> result os_state;
  write_error : string -> list sample -> Z -> gmap string filedata -> os_state
                -> option exn;
  exists_besides : string -> os_state -> bool;
  load_error : string -> os_state -> exn
}.

(** ** The state of a run *)

Abbreviation loc := positive.

Section Runtime.
Context `{RandomSource} `{Externals}.

Record World : Type := {
  rng : rng_state;
  (** the Python [list] objects, by identity *)
  heap : gmap loc (list (list sample));
  (** the files, by path *)
  files : gmap string filedata;
  (** the calls of [sf.write] that returned, so far: path, data,
      samplerate *)
  sf_log : list (string * list sample * Z);
  (** the file system besides the files *)
  os : os_state
}.

Definition set_rng (g : rng_state) (w : World) : World :=
  {| rng := g; heap := heap w; files := files w; sf_log := sf_log w; os := os w |}.
Definition set_heap (h : gmap loc (list (list sample))) (w : World) : World :=
  {| rng := rng w; heap := h; files := files w; sf_log := sf_log w; os := os w |}.
Definition set_os (o : os_state) (w : World) : World :=
  {| rng := rng w; heap := heap w; files := files w; sf_log := sf_log w; os := o |}.

Definition M (A : Type) : Type := World -> result A * World.

Definition ret {A} (a : A) : M A := fun w => (Ok a, w).
Definition raise {A} (e : exn) : M A := fun w => (Raise e, w).
Definition lift {A} (r : result A) : M A := fun w => (r, w).
Definition bind {A B} (m : M A) (k : A -> M B) : M B :=
  fun w =>
    match m w with
    | (Ok a, w') => k a w'
    | (Raise e, w') => (Raise e, w')
    end.

End Runtime.

Declare Scope py_scope.
Delimit Scope py_scope with py.
Notation "x <- c1 ;; c2" := (bind c1 (fun x => c2))
  (at level 100, c1 at next level, right associativity) : py_scope.
Notation "c1 ;; c2" := (bind c1 (fun _ => c2))
  (at level 100, right associativity) : py_scope.

Section Primitives.
Context `{RandomSource} `{Externals}.
Local Open Scope py_scope.

(** [for x in xs: body(x)] *)
Fixpoint for_each {A} (xs : list A) (body : A -> M unit) : M unit :=
  match xs with
  | [] => ret tt
  | x :: xs' => body x ;; for_each xs' body
  end.

(** [[]]: a new list object *)
Definition new_list : M loc :=
  fun w =>
    let l := fresh (dom (heap w)) in
    (Ok l, set_heap (<[l := []]> (heap w)) w).

(** The items of a list object; a reference that is no list has no [len]. *)
Definition list_items (l : loc) : M (list (list sample)) :=
  fun w =>
    match heap w !! l with
    | Some items => (Ok items, w)
    | None => (Raise (TypeError "object has no len()"), w)
    end.

(** [l.append(x)] *)
Definition list_append (l : loc) (x : list sample) : M unit :=
  items <- list_items l ;;
  fun w => (Ok tt, set_heap (<[l := items ++ [x]]> (heap w)) w).

Definition random_randbelow (n : Z) : M Z :=
  fun w => let (i, g) := randbelow n (rng w) in (Ok i, set_rng g w).

(** [random.random()] *)
Definition random_random : M float :=
  fun w => let (u, g) := random (rng w) in (Ok u, set_rng g w).

(** [random.uniform(a, b)] *)
Definition random_uniform (a b : float) : M float :=
  fun w => let (u, g) := uniform a b (rng w) in (Ok u, set_rng g w).

(** [random.choice(seq)] on the items of a sequence *)
Definition random_choice_of {A} (items : list A) : M A :=
  if py_len items =? 0
  then raise (IndexError "Cannot choose from an empty sequence")
  else i <- random_randbelow (py_len items) ;; lift (py_getitem items i).

(** [random.choice(seq)] on a list object *)
Definition random_choice (seq : loc) : M (list sample) :=
  items <- list_items seq ;; random_choice_of items.

(** [np.concatenate(arrays)] on a list object of 1-d arrays *)
Definition np_concatenate (arrays : loc) : M (list sample) :=
  items <- list_items arrays ;;
  match items with
  | [] => raise (ValueError "need at least one array to concatenate")
  | _ => ret (concat items)
  end.

(** [librosa.load(path, sr=sr)] *)
Definition librosa_load (path : string) (sr : Z) : M (list sample) :=
  fun w =>
    match files w !! path with
    | Some d => (wav_decode d sr, w)
    | None => (Raise (load_error path (os w)), w)
    end.

(** [sf.write(path, y, sr)]: the call raises, having written nothing, or
    the file at [path] holds [y] afterwards. *)
Definition sf_write (path : string) (y : list sample) (sr : Z) : M unit :=
  fun w =>
    match write_error path y sr (files w) (os w) with
    | Some e => (Raise e, w)
    | None =>
      (Ok tt,
       {| rng := rng w; heap := heap w;
          files := <[path := wav_encode y sr]> (files w);
          sf_log := sf_log w ++ [(path, y, sr)];
          os := os w |})
    end.

(** [os.makedirs(path, exist_ok=True)] *)
Definition os_makedirs (path : string) : M unit :=
  fun w =>
    match makedirs path (files w) (os w) with
    | Ok o => (Ok tt, set_os o w)
    | Raise e => (Raise e, w)
    end.

(** *** What a run may touch *)

(** [w'] differs from [w] at most in the generator state and in the list
    object [l]. *)
Definition only_touches (l : loc) (w w' : World) : Prop :=
  (forall l', l' <> l -> heap w' !! l' = heap w !! l')
  /\ files w' = files w
  /\ sf_log w' = sf_log w.

Definition touches_only (l : loc) {A} (m : M A) : Prop :=
  forall w, only_touches l w (snd (m w)).

End Primitives.

(** ** [class StyleComposer] *)

Module StyleComposer.

Record t : Type := { sr : Z }.

(** [StyleComposer(sr=22050)] *)
Definition __init__ (sr : Z) : t := {| sr := sr |}.

Section Segmenter.
Context {sample : Type}.

Definition segment_and_score (self : t) (y : list sample) (segment_length : float)
  : result (list (list sample)) :=
  (x <- py_mul_float_int segment_length (sr self) ;;
   samples_per_seg <- py_int x ;;
   starts <- py_range 0 (py_len y) samples_per_seg ;;
   let segments := map (fun i => py_slice y i (i + samples_per_seg)) starts in
   Ok (List.filter (fun seg => py_len seg =? samples_per_seg) segments))%result.

End Segmenter.

Section Composer.
Context `{RandomSource} `{Externals}.
Local Open Scope py_scope.

Definition compose (self : t) (segments : loc) (variation_strength : float)
    (num_phrases : Z) : M (list sample) :=
  new_audio <- new_list ;;
  indices <- lift (py_range 0 num_phrases 1) ;;
  for_each indices (fun _ =>
    seg <- random_choice segments ;;
    u <- random_random ;;
    seg' <- (if (u <? 0.5)%float
             then n_steps <- random_uniform (-1)%float 1%float ;;
                  lift (pitch_shift seg (sr self) n_steps)
             else rate <- random_uniform 0.95%float 1.05%float ;;
                  lift (time_stretch seg rate)) ;;
    list_append new_audio seg') ;;
  np_concatenate new_audio.

(** The body of the loop of [compose], for the list object [new_audio]. *)
Definition compose_body (self : t) (segments new_audio : loc) : M unit :=
  seg <- random_choice segments ;;
  u <- random_random ;;
  seg' <- (if (u <? 0.5)%float
           then n_steps <- random_uniform (-1)%float 1%float ;;
                lift (pitch_shift seg (sr self) n_steps)
           else rate <- random_uniform 0.95%float 1.05%float ;;
                lift (time_stretch seg rate)) ;;
  list_append new_audio seg'.

End Composer.

End StyleComposer.

(** ** [class AudioGenerator] *)

Module AudioGenerator.

Record t : Type := { input_dir : string; output_dir : string; sr : Z }.

Section Generator.
Context `{RandomSource} `{Externals}.
Local Open Scope py_scope.

(** [AudioGenerator(input_dir, output_dir, sr)] *)
Definition __init__ (input_dir output_dir : string) (sr : Z) : M t :=
  let self := {| input_dir := input_dir; output_dir := output_dir; sr := sr |} in
  os_makedirs output_dir ;;
  ret self.

(** The locals [pitch_shift] and [time_stretch] of the source are
    [pitch_steps] and [stretch_rate] here, the names being taken by the
    transforms; [n_steps] receives the int drawn, as a float. *)
Definition _transform_audio (self : t) (y : list sample) : M (list sample) :=
  pitch_steps <- random_choice_of [-2; -1; 1; 2] ;;
  stretch_rate <- random_uniform 0.9%float 1.1%float ;;
  y_shifted <- lift (pitch_shift y (sr self) (Z2F pitch_steps)) ;;
  y_stretched <- lift (time_stretch y_shifted stretch_rate) ;;
  ret y_stretched.

Definition generate (self : t) : M unit :=
  names <- (fun w => (os_listdir (input_dir self) (files w), w)) ;;
  for_each names (fun file =>
    if py_endswith (py_lower file) ".wav" then
      let input_path := os_path_join (input_dir self) file in
      y <- librosa_load input_path (sr self) ;;
      y_gen <- _transform_audio self y ;;
      let out_name := ("generated_" ++ file)%string in
      let output_path := os_path_join (output_dir self) out_name in
      sf_write output_path y_gen (sr self)
    else ret tt).

(** The body of the loop of [generate]. *)
Definition generate_body (self : t) (file : string) : M unit :=
  if py_endswith (py_lower file) ".wav" then
    let input_path := os_path_join (input_dir self) file in
    y <- librosa_load input_path (sr self) ;;
    y_gen <- _transform_audio self y ;;
    let out_name := ("generated_" ++ file)%string in
    let output_path := os_path_join (output_dir self) out_name in
    sf_write output_path y_gen (sr self)
  else ret tt.

End Generator.

End AudioGenerator.

(** ** Further Python and collaborators, for the loader and the driver *)

(** [str(n)] for an int *)
Definition py_str (n : Z) : string := NilZero.string_of_int (Z.to_int n).

(** [FileNotFoundError(msg)], a built-in exception the code raises itself. *)
Definition FileNotFoundError (msg : string) : exn :=
  ExternalError ("FileNotFoundError: " ++ msg).

(** [librosa.effects.trim(y)[0]]: the signal without its leading and
    trailing silence. *)
Class Trimmer `{Externals} : Type := {
  trim : list sample -> result (list sample)
}.

Section MorePrimitives.
Context `{RandomSource} `{Externals}.
Local Open Scope py_scope.

(** [acc = init; for x in xs: acc = body(acc, x)], for a local list that
    the loop alone appends to. *)
Fixpoint for_fold {A S} (xs : list A) (init : S) (body : S -> A -> M S) : M S :=
  match xs with
  | [] => ret init
  | x :: xs' => acc <- body init x ;; for_fold xs' acc body
  end.

(** [l.extend(xs)] *)
Definition list_extend (l : loc) (xs : list (list sample)) : M unit :=
  items <- list_items l ;;
  fun w => (Ok tt, set_heap (<[l := items ++ xs]> (heap w)) w).

(** [os.path.exists(path)]: [path] is one of the files, or exists besides
    them *)
Definition os_path_exists (path : string) : M bool :=
  fun w =>
    (Ok (match files w !! path with
         | Some _ => true
         | None => exists_besides path (os w)
         end), w).

(** [random.randint(a, b)], that is [randrange(a, b + 1)] *)
Definition random_randint (a b : Z) : M Z :=
  let width := b + 1 - a in
  if 0 <? width then i <- random_randbelow width ;; ret (a + i)
  else raise (ValueError ("empty range in randrange(" ++ py_str a ++ ", "
                          ++ py_str (b + 1) ++ ")")).

End MorePrimitives.

(** ** [class AudioManager] *)

Module AudioManager.

Record t : Type := { input_dir : string; sr : Z }.

(** [AudioManager(input_dir="input_audio", sr=22050)] *)
Definition __init__ (input_dir : string) (sr : Z) : t :=
  {| input_dir := input_dir; sr := sr |}.

Section Manager.
Context `{RandomSource} `{Externals} `{!Trimmer}.
Local Open Scope py_scope.

(** The body of the loop of [load_all]; [audio_data] is the list so far. *)
Definition load_all_body (self : t) (audio_data : list (string * list sample))
    (file : string) : M (list (string * list sample)) :=
  if py_endswith (py_lower file) ".wav" then
    let file_path := os_path_join (input_dir self) file in
    y <- librosa_load file_path (sr self) ;;
    y_trimmed <- lift (trim y) ;;
    ret (audio_data ++ [(file, y_trimmed)])
  else ret audio_data.

Definition load_all (self : t) : M (list (string * list sample)) :=
  names <- (fun w => (os_listdir (input_dir self) (files w), w)) ;;
  for_fold names [] (load_all_body self).

Definition load_file (self : t) (file_name : string) : M (list sample) :=
  let path := os_path_join (input_dir self) file_name in
  found <- os_path_exists path ;;
  if negb found then
    raise (FileNotFoundError ("File " ++ file_name ++ " not found in " ++ input_dir self))
  else
    y <- librosa_load path (sr self) ;;
    lift (trim y).

Definition save_audio (self : t) (y : list sample) (file_name output_dir : string)
  : M string :=
  os_makedirs output_dir ;;
  let output_path := os_path_join output_dir file_name in
  sf_write output_path y (sr self) ;;
  ret output_path.

End Manager.

End AudioManager.

(** ** The constructors of the analysis classes *)

Module FeatureExtractor.

Record t : Type := { sr : Z }.

(** [FeatureExtractor(sr=22050)] *)
Definition __init__ (sr : Z) : t := {| sr := sr |}.

End FeatureExtractor.

Module AudioModelTrainer.

(** [model] is the mean MFCC vector, once trained. *)
Record t : Type := { output_dir : string; model : option (list float) }.

Section Trainer.
Context `{RandomSource} `{Externals}.
Local Open Scope py_scope.

(** [AudioModelTrainer(output_dir="models")] *)
Definition __init__ (output_dir : string) : M t :=
  os_makedirs output_dir ;;
  ret {| output_dir := output_dir; model := None |}.

End Trainer.

End AudioModelTrainer.

Module Evaluator.

Record t : Type := { sr : Z }.

(** [Evaluator(sr=22050)] *)
Definition __init__ (sr : Z) : t := {| sr := sr |}.

End Evaluator.

(** ** [main.py] *)

Module Main.

(** An entry of [generated_pieces]. *)
Record piece : Type := { name : string; meter : string; tempo : Z }.

Section Driver.
Context `{RandomSource} `{Externals} `{!Trimmer}.
Local Open Scope py_scope.

(** The body of the segmenting loop, for the list object [all_segments]. *)
Definition segment_body (composer : StyleComposer.t) (all_segments : loc)
    (item : string * list sample) : M unit :=
  let '(name, y) := item in
  segments <- lift (StyleComposer.segment_and_score composer y 2.0%float) ;;
  list_extend all_segments segments.

(** The body of the composing loop; [generated_pieces] is the list so far. *)
Definition track_body (am : AudioManager.t) (composer : StyleComposer.t)
    (all_segments : loc) (generated_pieces : list piece) (i : Z) : M (list piece) :=
  new_piece <- StyleComposer.compose composer all_segments 0.1%float 8 ;;
  let output_path :=
    os_path_join "generated_music" ("style_composed_" ++ py_str (i + 1) ++ ".wav") in
  sf_write output_path new_piece (AudioManager.sr am) ;;
  meter <- random_choice_of ["6/8"; "4/4"; "7/8"]%string ;;
  tempo <- random_randint 80 120 ;;
  ret (generated_pieces ++
         [{| name := "Generated Track " ++ py_str (i + 1);
             meter := meter; tempo := tempo |}]).

Definition main : M unit :=
  let am := AudioManager.__init__ "input_audio" 22050 in
  let fe := FeatureExtractor.__init__ 22050 in
  trainer <- AudioModelTrainer.__init__ "models" ;;
  generator <- AudioGenerator.__init__ "input_audio" "generated_music" 22050 ;;
  let evaluator := Evaluator.__init__ 22050 in
  let composer := StyleComposer.__init__ 22050 in
  audio_data <- AudioManager.load_all am ;;
  match audio_data with
  | [] => ret tt
  | _ =>
    all_segments <- new_list ;;
    for_each audio_data (segment_body composer all_segments) ;;
    pool <- list_items all_segments ;;
    match pool with
    | [] => ret tt
    | _ =>
      os_makedirs "generated_music" ;;
      indices <- lift (py_range 0 6 1) ;;
      generated_pieces <- for_fold indices [] (track_body am composer all_segments) ;;
      ret tt
    end
  end.

(** The constructor calls that open [main]: those that act on the state. *)
Definition components : M (AudioModelTrainer.t * AudioGenerator.t) :=
  trainer <- AudioModelTrainer.__init__ "models" ;;
  generator <- AudioGenerator.__init__ "input_audio" "generated_music" 22050 ;;
  ret (trainer, generator).

(** [main] from [am.load_all()] on. *)
Definition session : M unit :=
  let am := AudioManager.__init__ "input_audio" 22050 in
  let composer := StyleComposer.__init__ 22050 in
  audio_data <- AudioManager.load_all am ;;
  match audio_data with
  | [] => ret tt
  | _ =>
    all_segments <- new_list ;;
    for_each audio_data (segment_body composer all_segments) ;;
    pool <- list_items all_segments ;;
    match pool with
    | [] => ret tt
    | _ =>
      os_makedirs "generated_music" ;;
      indices <- lift (py_range 0 6 1) ;;
      generated_pieces <- for_fold indices [] (track_body am composer all_segments) ;;
      ret tt
    end
  end.

End Driver.

End Main.

(** ** The specification's vocabulary *)

(** [floor(segment_length_seconds * sample_rate)], the product being the
    binary64 product the code computes. *)
Definition phrase_len (segment_length : float) (sample_rate : Z) : result Z :=
  (x <- py_mul_float_int segment_length sample_rate ;; py_floor x)%result.

(** The specification's error names, as the exceptions the code raises. *)
Definition InvalidConfiguration : exn := ValueError "range() arg 3 must not be zero".
Definition EmptyPoolError : exn := IndexError "Cannot choose from an empty sequence".
Definition NothingToConcatenate : exn := ValueError "need at least one array to concatenate".

Section ComposerSpec.
Context `{RandomSource} `{Externals}.

(** One iteration of the Composer, in the specification's words: draw a
    phrase of the pool, draw the branch, then exactly one of a pitch shift
    by a draw of [uniform(-1, 1)] and a time stretch by a draw of
    [uniform(0.95, 1.05)]. [Iteration pool sr g g' r]: from generator
    state [g] the iteration ends in [g'] with the transform's outcome [r]. *)
Inductive Iteration (pool : list (list sample)) (sr : Z)
  : rng_state -> rng_state -> result (list sample) -> Prop :=
| Iteration_pitch g i g1 seg u g2 n_steps g3 :
    randbelow (py_len pool) g = (i, g1) ->
    0 <= i < py_len pool ->
    nth_error pool (Z.to_nat i) = Some seg ->
    random g1 = (u, g2) ->
    (u <? 0.5)%float = true ->
    uniform (-1)%float 1%float g2 = (n_steps, g3) ->
    (-1 <=? n_steps)%float = true ->
    (n_steps <=? 1)%float = true ->
    Iteration pool sr g g3 (pitch_shift seg sr n_steps)
| Iteration_stretch g i g1 seg u g2 rate g3 :
    randbelow (py_len pool) g = (i, g1) ->
    0 <= i < py_len pool ->
    nth_error pool (Z.to_nat i) = Some seg ->
    random g1 = (u, g2) ->
    (u <? 0.5)%float = false ->
    uniform 0.95%float 1.05%float g2 = (rate, g3) ->
    (0.95 <=? rate)%float = true ->
    (rate <=? 1.05)%float = true ->
    Iteration pool sr g g3 (time_stretch seg rate).

(** [k] iterations in a row; the first transform that fails ends the run. *)
Inductive Iterations (pool : list (list sample)) (sr : Z)
  : nat -> rng_state -> rng_state -> result (list (list sample)) -> Prop :=
| Iterations_done g :
    Iterations pool sr 0 g g (Ok [])
| Iterations_step k g g1 g2 phrase phrases :
    Iteration pool sr g g1 (Ok phrase) ->
    Iterations pool sr k g1 g2 (Ok phrases) ->
    Iterations pool sr (S k) g g2 (Ok (phrase :: phrases))
| Iterations_fail k g g1 e :
    Iteration pool sr g g1 (Raise e) ->
    Iterations pool sr (S k) g g1 (Raise e)
| Iterations_fail_later k g g1 g2 phrase e :
    Iteration pool sr g g1 (Ok phrase) ->
    Iterations pool sr k g1 g2 (Raise e) ->
    Iterations pool sr (S k) g g2 (Raise e).

End ComposerSpec.

(** A WAV input file, as [generate] selects it. *)
Definition is_wav (file : string) : bool := py_endswith (py_lower file) ".wav".

Section GeneratorSpec.
Context `{RandomSource} `{Externals}.





End GeneratorSpec.

(** ** Further vocabulary *)

Section MoreVocabulary.
Context `{RandomSource} `{Externals}.

(** [Transformed pool sr r]: [r] is the outcome of one transform of a
    phrase of [pool]: a pitch shift by an amount within [[-1, 1]] or a time
    stretch by a rate within [[0.95, 1.05]]. *)
Definition Transformed (pool : list (list sample)) (sr : Z)
    (r : result (list sample)) : Prop :=
  exists seg, In seg pool /\
    ((exists n_steps, (-1 <=? n_steps)%float = true /\ (n_steps <=? 1)%float = true
                      /\ pitch_shift seg sr n_steps = r)
     \/ (exists rate, (0.95 <=? rate)%float = true /\ (rate <=? 1.05)%float = true
                      /\ time_stretch seg rate = r)).

(** The files after the writer calls [outs], in order, on the files [fs]. *)
Definition replay (outs : list (string * list sample * Z))
    (fs : gmap string filedata) : gmap string filedata :=
  fold_left (fun fs o => <[o.1.1 := wav_encode o.1.2 o.2]> fs) outs fs.

(** [w'] differs from [w] at most in the generator state. *)
Definition same_store (w w' : World) : Prop :=
  heap w' = heap w /\ files w' = files w /\ sf_log w' = sf_log w.

End MoreVocabulary.

Section ManagerVocabulary.
Context `{RandomSource} `{Externals} `{!Trimmer}.

(** [Loaded self w file y]: in the state [w], [y] is the file [file] of the
    input directory as the loader decodes it, trimmed. *)
Definition Loaded (self : AudioManager.t) (w : World) (file : string)
    (y : list sample) : Prop :=
  exists d y0,
    files w !! os_path_join (AudioManager.input_dir self) file = Some d
    /\ wav_decode d (AudioManager.sr self) = Ok y0
    /\ trim y0 = Ok y.

End ManagerVocabulary.

Section DriverVocabulary.
Context `{RandomSource} `{Externals}.

(** The phrases [main] collects from the loaded waveforms: two seconds
    at 22050 Hz each, file after file. *)
Definition pool_of (audio_data : list (string * list sample)) : list (list sample) :=
  concat (map (fun item =>
                 match StyleComposer.segment_and_score
                         (StyleComposer.__init__ 22050) item.2 2.0%float with
                 | Ok phrases => phrases
                 | Raise _ => []
                 end) audio_data).

(** [Composed pool sr k out]: [out] is [k] transformed phrases of [pool]
    laid end to end. *)
Definition Composed (pool : list (list sample)) (sr k : Z) (out : list sample) : Prop :=
  exists pieces,
    out = concat pieces
    /\ py_len pieces = k
    /\ Forall (fun piece => Transformed pool sr (Ok piece)) pieces.

(** The path of the track that [main] writes in round [i] of its loop. *)
Definition track_path (i : Z) : string :=
  os_path_join "generated_music" ("style_composed_" ++ py_str (i + 1) ++ ".wav").

(** [Track pool i o]: the writer call [o] is the track of round [i]: at
    the round's path, at 22050 Hz, eight transformed phrases of [pool]. *)
Definition Track (pool : list (list sample)) (i : Z)
    (o : string * list sample * Z) : Prop :=
  o.1.1 = track_path i /\ o.2 = 22050 /\ Composed pool 22050 8 o.1.2.

(** [Unwritten pool indices o e]: with the directories [o], the writer
    raises [e] for a track of one of the rounds [indices]: eight
    transformed phrases of [pool], at the round's path. *)
Definition Unwritten (pool : list (list sample)) (indices : list Z) (o : os_state)
    (e : exn) : Prop :=
  exists i out fs,
    In i indices
    /\ Composed pool 22050 8 out
    /\ write_error (track_path i) out 22050 fs o = Some e.

End DriverVocabulary.

(** ** A concrete run-time, to evaluate the code on *)

Module Demo.

(** A counter as generator: indices cycle, the branch alternates. *)
#[export] Instance counter : RandomSource := {|
  rng_state := nat;
  randbelow n g := (Z.of_nat g mod n, S g);
  random g := (if Nat.even g then 0.25%float else 0.75%float, S g);
  uniform a b g := (if Nat.even g then a else b, S g)
|}.

(** Integer samples; a pitch shift adds 100 to every sample, a time
    stretch repeats the first sample; both reject an empty signal. The
    rest of the file system is the list of its directories, named with
    or without a closing slash: a directory cannot be made where a file
    is, and a file is written only into a directory that exists. *)
#[export] Instance toy_audio : Externals := {|
  sample := Z;
  filedata := list Z * Z;
  pitch_shift y sr n_steps :=
    match y with
    | [] => Raise (ExternalError "ParameterError")
    | _ => Ok (map (Z.add 100) y)
    end;
  time_stretch y rate :=
    match y with
    | [] => Raise (ExternalError "ParameterError")
    | x :: _ => Ok (x :: y)
    end;
  wav_encode y sr := (y, sr);
  wav_decode d sr := Ok (fst d);
  os_listdir d fs :=
    if String.eqb d "input_audio" then Ok ["a.wav"; "notes.txt"; "b.wav"]%string
    else Raise (ExternalError "FileNotFoundError");
  os_state := list string;
  makedirs path fs dirs :=
    if String.eqb path "" then Raise (ExternalError "FileNotFoundError")
    else match fs !! path with
         | Some _ => Raise (ExternalError "FileExistsError")
         | None => Ok (path :: dirs)
         end;
  write_error path y sr fs dirs :=
    if existsb (fun d => String.prefix (d ++ "/") path) dirs then None
    else Some (ExternalError "LibsndfileError");
  exists_besides path dirs :=
    existsb (fun d => String.eqb path d || String.eqb path (d ++ "/")) dirs;
  load_error path dirs :=
    if existsb (fun d => String.eqb path d || String.eqb path (d ++ "/")) dirs
    then ExternalError "IsADirectoryError"
    else ExternalError "FileNotFoundError"
|}.

Definition composer : StyleComposer.t := StyleComposer.__init__ 22050.

Definition pool_at : loc := 1%positive.

Definition world (pool : list (list Z)) (g : nat) : World :=
  {| rng := g; heap := {[ pool_at := pool ]}; files := ∅; sf_log := [];
     os := ["input_audio"; "generated_music"]%string |}.

Definition generator : AudioGenerator.t :=
  {| AudioGenerator.input_dir := "input_audio";
     AudioGenerator.output_dir := "generated_music";
     AudioGenerator.sr := 22050 |}.

Definition a_wav : list (@sample toy_audio) := [1; 2; 3].

Definition disk : World :=
  {| rng := 0%nat; heap := ∅;
     files := {[ "input_audio/a.wav"%string := ([1; 2; 3], 22050);
                 "input_audio/b.wav"%string := ([7; 8], 22050);
                 "input_audio/notes.txt"%string := ([], 0) ]};
     sf_log := [];
     os := ["input_audio"; "generated_music"]%string |}.

(** The same disk without the file [b.wav], which the listing still
    names. *)
Definition half_disk : World :=
  {| rng := 0%nat; heap := ∅;
     files := {[ "input_audio/a.wav"%string := ([1; 2; 3], 22050);
                 "input_audio/notes.txt"%string := ([], 0) ]};
     sf_log := [];
     os := ["input_audio"; "generated_music"]%string |}.

(** The same disk without the output directory. *)
Definition bare_disk : World :=
  {| rng := 0%nat; heap := ∅;
     files := {[ "input_audio/a.wav"%string := ([1; 2; 3], 22050);
                 "input_audio/b.wav"%string := ([7; 8], 22050);
                 "input_audio/notes.txt"%string := ([], 0) ]};
     sf_log := [];
     os := ["input_audio"]%string |}.

End Demo.

(** A second run-time, with a trimmer and files for the loader. *)

Module Studio.
Import Demo.

(** Silence is the sample [0]. *)
Fixpoint drop_silence (y : list Z) : list Z :=
  match y with
  | 0 :: y' => drop_silence y'
  | _ => y
  end.

Definition strip (y : list Z) : result (list Z) :=
  Ok (rev' (drop_silence (rev' (drop_silence y)))).

#[export] Instance zero_trimmer : @Trimmer Demo.toy_audio :=
  @Build_Trimmer Demo.toy_audio strip.

Definition manager : AudioManager.t := AudioManager.__init__ "input_audio" 22050.

(** Two short files and a text file. *)
Definition short_disk : @World Demo.counter Demo.toy_audio :=
  {| rng := 0%nat; heap := ∅;
     files := {[ "input_audio/a.wav"%string := ([0; 1; 2; 3; 0], 22050);
                 "input_audio/b.wav"%string := ([7; 8], 22050);
                 "input_audio/notes.txt"%string := ([], 0) ]};
     sf_log := [];
     os := ["input_audio"]%string |}.

(** Two seconds and a half of the sample [5]. *)
Definition long_wave : list Z := repeat 5 (Z.to_nat 55125).

(** A disk with the file [a.wav] holding [y], and a short file. *)
Definition disk_of (y : list Z) : @World Demo.counter Demo.toy_audio :=
  {| rng := 0%nat; heap := ∅;
     files := {[ "input_audio/a.wav"%string := (y, 22050);
                 "input_audio/b.wav"%string := ([7; 8], 22050) ]};
     sf_log := [];
     os := ["input_audio"]%string |}.

Definition long_disk : @World Demo.counter Demo.toy_audio := disk_of long_wave.

(** The directories of these disks as [main] makes them: [models] by the
    trainer, [generated_music] by the generator, and [generated_music]
    again before the tracks. *)
Definition dirs1 : list string := ["models"; "input_audio"]%string.
Definition dirs2 : list string := ["generated_music"; "models"; "input_audio"]%string.
Definition dirs3 : list string :=
  ["generated_music"; "generated_music"; "models"; "input_audio"]%string.

(** A disk where a file is in the way of the directory of the tracks. *)
Definition blocked_disk : @World Demo.counter Demo.toy_audio :=
  {| rng := 0%nat; heap := ∅;
     files := {[ "input_audio/a.wav"%string := ([1; 2; 3], 22050);
                 "generated_music"%string := ([], 0) ]};
     sf_log := [];
     os := ["input_audio"]%string |}.

End Studio.

(** ** Truncation against floor *)

Section TruncFloor.

Lemma sf_den_pos e : 0 < sf_den e.
Proof. unfold sf_den. apply Z.pow_pos_nonneg; lia. Qed.

Lemma quot_div_bounds n d : 0 < d -> n / d <= Z.quot n d <= n / d + 1.
Proof.
  intros Hd. destruct (Z.le_gt_cases 0 n) as [Hn | Hn].
  - rewrite Z.quot_div_nonneg by lia. lia.
  - replace n with (- (- n)) at 2 3 by lia.
    rewrite Z.quot_opp_l by lia. rewrite Z.quot_div_nonneg by lia.
    pose proof (Z.div_mod n d ltac:(lia)) as E1.
    pose proof (Z.mod_pos_bound n d Hd) as B1.
    pose proof (Z.div_mod (- n) d ltac:(lia)) as E2.
    pose proof (Z.mod_pos_bound (- n) d Hd) as B2.
    nia.
Qed.

Lemma quot_div_pos n d : 0 < d -> 0 <= n / d -> Z.quot n d = n / d.
Proof.
  intros Hd Hq. apply Z.quot_div_nonneg; [|lia].
  pose proof (Z.div_mod n d ltac:(lia)). pose proof (Z.mod_pos_bound n d Hd). nia.
Qed.

(** [int] and [math.floor] are defined on the same floats, and agree
    wherever the floor is not negative. *)
Lemma py_int_of_floor x p :
  py_floor x = Ok p ->
  exists n, py_int x = Ok n /\ p <= n <= p + 1 /\ (0 <= p -> n = p).
Proof.
  unfold py_floor, py_int. destruct (Prim2SF x) as [s|s| |s m e]; try discriminate.
  - intros [= <-]. exists 0. repeat split; lia.
  - intros [= <-]. eexists. split; [reflexivity|]. split.
    + apply quot_div_bounds, sf_den_pos.
    + apply quot_div_pos, sf_den_pos.
Qed.

End TruncFloor.

(** ** Windows of a waveform *)

Section Windows.
Context {A : Type}.
Implicit Types (y : list A) (n k q : nat).

(** The [k]-th window of [n] samples. *)
Definition window y n k : list A := take n (drop (k * n) y).

Lemma window_length y n k : length (window y n k) = (n `min` (length y - k * n))%nat.
Proof. unfold window. by rewrite length_take, length_drop. Qed.

Lemma window_full y n k :
  (0 < n)%nat -> (k < length y / n)%nat -> length (window y n k) = n.
Proof.
  intros Hn Hk. rewrite window_length.
  pose proof (Nat.div_mod_eq (length y) n).
  pose proof (Nat.mod_upper_bound (length y) n ltac:(lia)). nia.
Qed.

Lemma window_short y n k :
  (0 < n)%nat -> (length y / n <= k)%nat -> length (window y n k) <> n.
Proof.
  intros Hn Hk. rewrite window_length.
  pose proof (Nat.div_mod_eq (length y) n).
  pose proof (Nat.mod_upper_bound (length y) n ltac:(lia)). nia.
Qed.

Lemma py_slice_window y n k :
  (0 < n)%nat -> (k * n <= length y)%nat ->
  py_slice y (Z.of_nat k * Z.of_nat n) (Z.of_nat k * Z.of_nat n + Z.of_nat n)
  = window y n k.
Proof.
  intros Hn Hk. unfold py_slice, window, clamp_index, py_len.
  destruct (Z.ltb_spec (Z.of_nat k * Z.of_nat n) 0) as [?|_]; [lia|].
  destruct (Z.ltb_spec (Z.of_nat k * Z.of_nat n + Z.of_nat n) 0) as [?|_]; [lia|].
  replace (Z.to_nat (Z.min (Z.of_nat k * Z.of_nat n) (Z.of_nat (length y)))) with (k * n)%nat by lia.
  destruct (Z.le_gt_cases (Z.of_nat k * Z.of_nat n + Z.of_nat n) (Z.of_nat (length y))) as [Hle|Hgt].
  - f_equal. lia.
  - rewrite !take_ge; [done | rewrite length_drop; lia | rewrite length_drop; lia].
Qed.

Lemma filter_none {B} (f : B -> bool) (l : list B) :
  (forall x, In x l -> f x = false) -> List.filter f l = [].
Proof.
  induction l as [|x l IH]; intros Hf; [done|]. simpl.
  rewrite (Hf x) by (by left). apply IH. intros z Hz. apply Hf. by right.
Qed.

Lemma filter_windows y n c :
  (0 < n)%nat -> (length y / n <= c)%nat ->
  List.filter (fun seg => py_len seg =? Z.of_nat n) (map (window y n) (seq 0 c))
  = map (window y n) (seq 0 (length y / n)).
Proof.
  intros Hn Hc.
  replace c with (length y / n + (c - length y / n))%nat by lia.
  rewrite seq_app, map_app, List.filter_app. simpl.
  rewrite <- (app_nil_r (map _ (seq 0 (length y / n)))) at 2. f_equal.
  - apply forallb_filter_id, forallb_forall. intros seg Hin.
    apply in_map_iff in Hin as (k & <- & Hk). apply in_seq in Hk.
    unfold py_len. rewrite window_full by lia. apply Z.eqb_refl.
  - apply filter_none. intros seg Hin.
    apply in_map_iff in Hin as (k & <- & Hk). apply in_seq in Hk.
    apply Z.eqb_neq. unfold py_len. intros E.
    apply (window_short y n k); lia.
Qed.

Lemma concat_windows y n q :
  (q * n <= length y)%nat ->
  concat (map (window y n) (seq 0 q)) = take (q * n) y.
Proof.
  induction q as [|q IH]; intros Hq; [done|].
  rewrite seq_S, map_app, concat_app, IH by lia. simpl.
  rewrite app_nil_r. unfold window.
  rewrite take_take_drop. f_equal. lia.
Qed.

(** The starts [range(0, len(y), n)] all lie inside the waveform. *)
Lemma range_windows y n :
  (0 < n)%nat ->
  py_range 0 (py_len y) (Z.of_nat n)
  = Ok (map (fun k => Z.of_nat k * Z.of_nat n)
            (seq 0 (range_len 0 (py_len y) (Z.of_nat n))))
  /\ (length y / n <= range_len 0 (py_len y) (Z.of_nat n))%nat
  /\ (forall k, (k < range_len 0 (py_len y) (Z.of_nat n))%nat -> (k * n <= length y)%nat).
Proof.
  intros Hn. unfold py_range, range_len, py_len.
  destruct (Z.eqb_spec (Z.of_nat n) 0) as [?|_]; [lia|].
  destruct (Z.ltb_spec 0 (Z.of_nat n)) as [_|?]; [|lia].
  split; [done|].
  pose proof (Nat.div_mod_eq (length y) n) as E.
  pose proof (Nat.mod_upper_bound (length y) n ltac:(lia)) as B.
  destruct (Z.ltb_spec 0 (Z.of_nat (length y))) as [Hpos|Hz].
  - set (c := (Z.of_nat (length y) - 0 - 1) / Z.of_nat n).
    assert (Hc : Z.of_nat n * c <= Z.of_nat (length y) - 1 < Z.of_nat n * (c + 1)).
    { pose proof (Z.div_mod (Z.of_nat (length y) - 0 - 1) (Z.of_nat n) ltac:(lia)).
      pose proof (Z.mod_pos_bound (Z.of_nat (length y) - 0 - 1) (Z.of_nat n) ltac:(lia)).
      fold c in H. lia. }
    assert (0 <= c) by nia.
    split; [|intros k Hk]; nia.
  - assert (length y = 0)%nat as -> by lia. split; [|intros k Hk; lia].
    rewrite Nat.Div0.div_0_l. lia.
Qed.

End Windows.

(** ** The Segmenter *)

Section SegmenterFacts.
Context {sample : Type}.
Implicit Types (y : list sample) (self : StyleComposer.t).
Import StyleComposer.

(** What [segment_and_score] does, by the sign of [samples_per_seg]. *)
Lemma segment_and_score_cases self y L x n :
  py_mul_float_int L (sr self) = Ok x ->
  py_int x = Ok n ->
  segment_and_score self y L =
    if n =? 0 then Raise InvalidConfiguration
    else if n <? 0 then Ok []
    else Ok (map (window y (Z.to_nat n)) (seq 0 (length y / Z.to_nat n))).
Proof.
  intros Hx Hn. unfold segment_and_score. rewrite Hx. simpl. rewrite Hn. simpl.
  destruct (Z.eqb_spec n 0) as [->|Hn0]; [done|].
  destruct (Z.ltb_spec n 0) as [Hneg|Hpos].
  - unfold py_range, range_len.
    destruct (Z.eqb_spec n 0); [lia|].
    destruct (Z.ltb_spec 0 n); [lia|].
    destruct (Z.ltb_spec (py_len y) 0); [unfold py_len in *; lia|]. done.
  - assert (E : n = Z.of_nat (Z.to_nat n)) by lia.
    assert (Hpos' : (0 < Z.to_nat n)%nat) by lia.
    revert E Hpos'. generalize (Z.to_nat n). intros m -> Hm.
    destruct (range_windows y m Hm) as (-> & Hle & Hin). simpl.
    rewrite map_map.
    rewrite (map_ext_in _ (window y m)).
    + by rewrite filter_windows.
    + intros k Hk. apply in_seq in Hk. apply py_slice_window; [done|]. apply Hin. lia.
Qed.

(** C1. Whenever [phrase_len = floor(L * sr)] is positive,
    [segment_and_score] returns exactly [floor(len(w) / phrase_len)]
    phrases; the [i]-th is the window of [phrase_len] samples starting at
    [i * phrase_len]; every phrase has exactly [phrase_len] samples; the
    phrases together are the first [count * phrase_len] samples of the
    waveform, so a shorter trailing window is dropped; and a waveform
    shorter than one phrase (the empty one included) gives no phrase. *)
Theorem segment_and_score_phrases self y L pl :
  phrase_len L (sr self) = Ok pl ->
  0 < pl ->
  exists phrases,
    segment_and_score self y L = Ok phrases
    /\ py_len phrases = py_len y / pl
    /\ (forall i, (i < length phrases)%nat ->
          nth_error phrases i = Some (take (Z.to_nat pl) (drop (i * Z.to_nat pl) y)))
    /\ Forall (fun phrase => py_len phrase = pl) phrases
    /\ concat phrases = take (length phrases * Z.to_nat pl) y
    /\ (py_len y < pl -> phrases = []).
Proof.
  unfold phrase_len. intros Hpl Hpos.
  destruct (py_mul_float_int L (sr self)) as [x|] eqn:Hx; [|done]. simpl in Hpl.
  destruct (py_int_of_floor x pl Hpl) as (n & Hn & _ & Heq).
  rewrite (Heq ltac:(lia)) in Hn. clear Heq n.
  rewrite (segment_and_score_cases self y L x pl Hx Hn).
  destruct (Z.eqb_spec pl 0) as [?|_]; [lia|].
  destruct (Z.ltb_spec pl 0) as [?|_]; [lia|].
  set (n := Z.to_nat pl). assert (Hn0 : (0 < n)%nat) by lia.
  assert (Hpl' : pl = Z.of_nat n) by lia.
  eexists. split; [reflexivity|].
  pose proof (Nat.div_mod_eq (length y) n) as E.
  assert (Hlen : length (map (window y n) (seq 0 (length y / n))) = (length y / n)%nat)
    by (by rewrite length_map, length_seq).
  repeat split.
  - unfold py_len. rewrite Hlen, Hpl'. apply Nat2Z.inj_div.
  - intros i Hi. rewrite Hlen in Hi.
    rewrite nth_error_map, nth_error_seq.
    destruct (Nat.ltb_spec i (length y / n)); [done|lia].
  - apply List.Forall_forall. intros phrase Hin.
    apply in_map_iff in Hin as (k & <- & Hk). apply in_seq in Hk.
    unfold py_len. rewrite window_full; lia.
  - rewrite Hlen. apply concat_windows. nia.
  - unfold py_len. intros Hshort.
    rewrite Nat.div_small by lia. done.
Qed.

(** C4, as the code has it. For [phrase_len = floor(L * sr) <= 0] the
    code's [samples_per_seg = int(L * sr)] lies between [phrase_len] and
    [0]; [segment_and_score] fails with [InvalidConfiguration] exactly
    when it is [0] (so whenever [phrase_len = 0]), and returns no phrase,
    without an error, when it is negative (so whenever
    [phrase_len <= -2]). *)
Theorem segment_and_score_nonpositive self y L pl :
  phrase_len L (sr self) = Ok pl ->
  pl <= 0 ->
  exists samples_per_seg,
    (x <- py_mul_float_int L (sr self) ;; py_int x)%result = Ok samples_per_seg
    /\ pl <= samples_per_seg <= 0
    /\ samples_per_seg <= pl + 1
    /\ (pl = 0 -> samples_per_seg = 0)
    /\ segment_and_score self y L =
         if samples_per_seg =? 0 then Raise InvalidConfiguration else Ok [].
Proof.
  unfold phrase_len. intros Hpl Hneg.
  destruct (py_mul_float_int L (sr self)) as [x|] eqn:Hx; [|done]. simpl in Hpl.
  destruct (py_int_of_floor x pl Hpl) as (n & Hn & Hb & Heq).
  exists n. simpl. split; [done|].
  assert (n <= 0) by (destruct (Z.eq_dec pl 0) as [->|?]; [rewrite Heq; lia | lia]).
  repeat split; try lia.
  rewrite (segment_and_score_cases self y L x n Hx Hn).
  destruct (Z.eqb_spec n 0); [done|]. destruct (Z.ltb_spec n 0); [done|lia].
Qed.

End SegmenterFacts.

(** C1 at a 9-sample waveform, 2 samples per second, 2-second phrases. *)
Lemma segment_and_score_phrases_witness :
  phrase_len 2.0%float 2 = Ok 4 /\ 0 < 4 /\
  exists phrases,
    StyleComposer.segment_and_score (StyleComposer.__init__ 2) [1; 2; 3; 4; 5; 6; 7; 8; 9] 2.0%float
      = Ok phrases
    /\ py_len phrases = py_len [1; 2; 3; 4; 5; 6; 7; 8; 9] / 4
    /\ (forall i, (i < length phrases)%nat ->
          nth_error phrases i = Some (take (Z.to_nat 4) (drop (i * Z.to_nat 4) [1; 2; 3; 4; 5; 6; 7; 8; 9])))
    /\ Forall (fun phrase => py_len phrase = 4) phrases
    /\ concat phrases = take (length phrases * Z.to_nat 4) [1; 2; 3; 4; 5; 6; 7; 8; 9]
    /\ (py_len [1; 2; 3; 4; 5; 6; 7; 8; 9] < 4 -> phrases = []).
Proof.
  split; [vm_compute; reflexivity|]. split; [lia|].
  apply (segment_and_score_phrases (StyleComposer.__init__ 2) [1; 2; 3; 4; 5; 6; 7; 8; 9] 2.0%float 4).
  - vm_compute; reflexivity.
  - lia.
Defined.

(** C4 refuted as stated: two seconds backwards at 22050 Hz give
    [phrase_len = -44100 <= 0], and the call returns no phrase instead of
    failing. *)
Lemma segment_negative_length_returns :
  ~ (forall (y : list Z) (L : float) (sample_rate pl : Z),
       phrase_len L sample_rate = Ok pl -> pl <= 0 ->
       exists e, StyleComposer.segment_and_score (StyleComposer.__init__ sample_rate) y L = Raise e).
Proof.
  intros Hclaim.
  destruct (Hclaim [1; 2; 3] (-2.0)%float 22050 (-44100)) as [e He].
  - vm_compute; reflexivity.
  - lia.
  - vm_compute in He. discriminate He.
Qed.

Lemma segment_and_score_nonpositive_witness :
  phrase_len (-2.0)%float 22050 = Ok (-44100) /\ -44100 <= 0 /\
  exists samples_per_seg,
    (x <- py_mul_float_int (-2.0)%float (StyleComposer.sr (StyleComposer.__init__ 22050)) ;; py_int x)%result
      = Ok samples_per_seg
    /\ -44100 <= samples_per_seg <= 0
    /\ samples_per_seg <= -44100 + 1
    /\ (-44100 = 0 -> samples_per_seg = 0)
    /\ StyleComposer.segment_and_score (StyleComposer.__init__ 22050) [1; 2; 3] (-2.0)%float =
         if samples_per_seg =? 0 then Raise InvalidConfiguration else Ok [].
Proof.
  split; [vm_compute; reflexivity|]. split; [lia|].
  apply (segment_and_score_nonpositive (StyleComposer.__init__ 22050) [1; 2; 3] (-2.0)%float (-44100)).
  - vm_compute; reflexivity.
  - lia.
Defined.

(** ** Running programs *)

Section MonadFacts.
Context `{RandomSource} `{Externals}.

Lemma bind_ok {A B} (m : M A) (k : A -> M B) w a w' :
  m w = (Ok a, w') -> bind m k w = k a w'.
Proof. unfold bind. by intros ->. Qed.

Lemma bind_raise {A B} (m : M A) (k : A -> M B) w e w' :
  m w = (Raise e, w') -> bind m k w = (Raise e, w').
Proof. unfold bind. by intros ->. Qed.

Lemma py_getitem_in_range {A} (l : list A) i :
  0 <= i < py_len l ->
  exists x, nth_error l (Z.to_nat i) = Some x /\ py_getitem l i = Ok x.
Proof.
  intros Hi. unfold py_getitem.
  destruct (Z.ltb_spec i 0) as [?|_]; [lia|].
  destruct (Z.leb_spec 0 i) as [_|?]; [|lia].
  destruct (Z.ltb_spec i (py_len l)) as [_|?]; [|lia]. simpl.
  destruct (nth_error l (Z.to_nat i)) as [x|] eqn:E; [by exists x|].
  apply nth_error_None in E. unfold py_len in Hi. lia.
Qed.

(** [range(k)] has [k] items, none for [k <= 0]. *)
Lemma py_range_count k :
  exists indices, py_range 0 k 1 = Ok indices /\ length indices = Z.to_nat k.
Proof.
  unfold py_range. simpl. eexists. split; [reflexivity|].
  rewrite length_map, length_seq. unfold range_len. simpl.
  destruct (Z.ltb_spec 0 k); [|lia].
  rewrite Z.div_1_r. lia.
Qed.

(** *** Frames *)

Lemma only_touches_refl l w : only_touches l w w.
Proof. by repeat split. Qed.

Lemma only_touches_trans l w1 w2 w3 :
  only_touches l w1 w2 -> only_touches l w2 w3 -> only_touches l w1 w3.
Proof.
  intros (Ha & Hb & Hc) (Ha' & Hb' & Hc'). repeat split; [|congruence..].
  intros l' Hl'. rewrite Ha', Ha; done.
Qed.

Lemma touches_only_bind l {A B} (m : M A) (k : A -> M B) :
  touches_only l m -> (forall a, touches_only l (k a)) -> touches_only l (bind m k).
Proof.
  intros Hm Hk w. unfold bind. specialize (Hm w).
  destruct (m w) as [[a|e] w1]; simpl in *; [|done].
  eapply only_touches_trans; [exact Hm | apply Hk].
Qed.

Lemma touches_only_pure l {A} (r : result A) : touches_only l (fun w => (r, w)).
Proof. intros w. apply only_touches_refl. Qed.

Lemma touches_only_list_items l l0 : touches_only l (list_items l0).
Proof. intros w. unfold list_items. destruct (heap w !! l0); apply only_touches_refl. Qed.

Lemma touches_only_rng l {A} (draw : rng_state -> A * rng_state) :
  touches_only l (fun w => let (a, g) := draw (rng w) in (Ok a, set_rng g w)).
Proof. intros w. destruct (draw (rng w)). by repeat split. Qed.

Lemma touches_only_choice l {A} (items : list A) : touches_only l (random_choice_of items).
Proof.
  unfold random_choice_of. destruct (py_len items =? 0); [apply touches_only_pure|].
  apply touches_only_bind; [apply touches_only_rng | intros; apply touches_only_pure].
Qed.

Lemma touches_only_append l x : touches_only l (list_append l x).
Proof.
  unfold list_append. apply touches_only_bind; [apply touches_only_list_items|].
  intros items w. repeat split. simpl. intros l' Hl'. by rewrite lookup_insert_ne.
Qed.

Lemma touches_only_for_each l {A} (xs : list A) (body : A -> M unit) :
  (forall x, touches_only l (body x)) -> touches_only l (for_each xs body).
Proof.
  intros Hbody. induction xs as [|x xs IH]; simpl.
  - apply touches_only_pure.
  - apply touches_only_bind; [apply Hbody | done].
Qed.

Lemma touches_only_concatenate l l0 : touches_only l (np_concatenate l0).
Proof.
  unfold np_concatenate. apply touches_only_bind; [apply touches_only_list_items|].
  intros [|? ?]; apply touches_only_pure.
Qed.

End MonadFacts.

(** ** The Composer *)

Section ComposerFacts.
Context `{RandomSource} `{Externals}.
Implicit Types (self : StyleComposer.t) (w : World) (pool : list (list sample)).
Import StyleComposer.

Lemma compose_unfold self segments variation_strength num_phrases :
  compose self segments variation_strength num_phrases =
  (new_audio <- new_list ;;
   indices <- lift (py_range 0 num_phrases 1) ;;
   for_each indices (fun _ => compose_body self segments new_audio) ;;
   np_concatenate new_audio)%py.
Proof. reflexivity. Qed.

(** One pass through the loop body is one [Iteration]; the transformed
    phrase goes to the end of [new_audio], and nothing else changes. *)
Lemma compose_body_iteration self segments new_audio w pool acc :
  RandomSourceLaws ->
  heap w !! segments = Some pool ->
  pool <> [] ->
  heap w !! new_audio = Some acc ->
  exists g' outcome,
    Iteration pool (sr self) (rng w) g' outcome /\
    compose_body self segments new_audio w =
      match outcome with
      | Ok phrase =>
          (Ok tt, set_heap (<[new_audio := acc ++ [phrase]]> (heap w)) (set_rng g' w))
      | Raise e => (Raise e, set_rng g' w)
      end.
Proof.
  intros Hlaws Hpool Hne Hacc.
  unfold compose_body, random_choice, list_items, random_choice_of.
  assert (Hlen : 0 < py_len pool).
  { unfold py_len. destruct pool; [done|]. simpl. lia. }
  destruct (randbelow (py_len pool) (rng w)) as [i g1] eqn:Ei.
  pose proof (randbelow_range (py_len pool) (rng w) Hlen) as Hi. rewrite Ei in Hi. simpl in Hi.
  destruct (py_getitem_in_range pool i Hi) as (seg & Hnth & Hget).
  destruct (random g1) as [u g2] eqn:Eu.
  unfold bind at 1. unfold bind at 1. rewrite Hpool.
  destruct (Z.eqb_spec (py_len pool) 0) as [?|_]; [lia|].
  unfold bind at 1. unfold random_randbelow. rewrite Ei.
  unfold lift at 1. rewrite Hget.
  unfold bind at 1. unfold random_random. simpl rng. rewrite Eu.
  destruct (u <? 0.5)%float eqn:Ebranch.
  - destruct (uniform (-1)%float 1%float g2) as [n_steps g3] eqn:En.
    pose proof (uniform_range (-1)%float 1%float g2 eq_refl) as [Hlo Hhi].
    rewrite En in Hlo, Hhi. simpl in Hlo, Hhi.
    exists g3, (pitch_shift seg (sr self) n_steps). split.
    { eapply Iteration_pitch; eauto. }
    unfold bind at 1. unfold bind at 1. unfold random_uniform. simpl rng. rewrite En.
    unfold lift. destruct (pitch_shift seg (sr self) n_steps) as [phrase|e]; [|done].
    unfold list_append, list_items, bind. simpl. by rewrite Hacc.
  - destruct (uniform 0.95%float 1.05%float g2) as [rate g3] eqn:En.
    pose proof (uniform_range 0.95%float 1.05%float g2 eq_refl) as [Hlo Hhi].
    rewrite En in Hlo, Hhi. simpl in Hlo, Hhi.
    exists g3, (time_stretch seg rate). split.
    { eapply Iteration_stretch; eauto. }
    unfold bind at 1. unfold bind at 1. unfold random_uniform. simpl rng. rewrite En.
    unfold lift. destruct (time_stretch seg rate) as [phrase|e]; [|done].
    unfold list_append, list_items, bind. simpl. by rewrite Hacc.
Qed.

Lemma Iterations_length pool sr k g g' phrases :
  Iterations pool sr k g g' (Ok phrases) -> length phrases = k.
Proof.
  revert g phrases. induction k as [|k IH]; intros g phrases Hit; inversion Hit; subst; [done|].
  simpl. f_equal. eauto.
Qed.

(** The loop: as many [Iteration]s as indices, the transformed phrases
    appended to [new_audio] in the order they were drawn. *)
Lemma for_each_iterations self segments new_audio pool indices :
  RandomSourceLaws ->
  pool <> [] ->
  segments <> new_audio ->
  forall w acc,
    heap w !! segments = Some pool ->
    heap w !! new_audio = Some acc ->
    exists g' outcome,
      Iterations pool (sr self) (length indices) (rng w) g' outcome /\
      exists appended,
        for_each indices (fun _ : Z => compose_body self segments new_audio) w =
          (match outcome with Ok _ => Ok tt | Raise e => Raise e end,
           set_heap (<[new_audio := acc ++ appended]> (heap w)) (set_rng g' w))
        /\ (forall phrases, outcome = Ok phrases -> appended = phrases).
Proof.
  intros Hlaws Hne Hdiff.
  induction indices as [|i indices IH]; intros w acc Hpool Hacc.
  - exists (rng w), (Ok []). split; [constructor|]. exists []. split.
    + simpl. unfold ret. f_equal. destruct w. unfold set_heap, set_rng. simpl in *.
      f_equal. rewrite app_nil_r. by rewrite insert_id.
    + by intros phrases [= <-].
  - destruct (compose_body_iteration self segments new_audio w pool acc Hlaws Hpool Hne Hacc)
      as (g1 & outcome1 & Hit1 & Hrun1).
    destruct outcome1 as [phrase|e].
    + set (w1 := set_heap (<[new_audio := acc ++ [phrase]]> (heap w)) (set_rng g1 w)) in *.
      destruct (IH w1 (acc ++ [phrase])) as (g2 & outcome & Hits & appended & Hrun & Hall).
      { subst w1. simpl. by rewrite lookup_insert_ne. }
      { subst w1. simpl. by rewrite lookup_insert_eq. }
      assert (Hw : set_heap (<[new_audio := (acc ++ [phrase]) ++ appended]> (heap w1)) (set_rng g2 w1)
                   = set_heap (<[new_audio := acc ++ phrase :: appended]> (heap w)) (set_rng g2 w)).
      { subst w1. unfold set_heap, set_rng. simpl. f_equal.
        rewrite insert_insert_eq. by rewrite <- app_assoc. }
      simpl for_each. rewrite (bind_ok _ _ _ _ _ Hrun1), Hrun, Hw.
      exists g2. destruct outcome as [phrases|e].
      * exists (Ok (phrase :: phrases)). split; [by eapply Iterations_step|].
        exists (phrase :: appended). split; [done|].
        intros ? [= <-]. f_equal. by apply Hall.
      * exists (Raise e). split; [by eapply Iterations_fail_later|].
        exists (phrase :: appended). split; [done|]. intros ? [=].
    + exists g1, (Raise e). split; [by apply Iterations_fail|].
      exists []. split.
      * simpl for_each. rewrite (bind_raise _ _ _ _ _ Hrun1). f_equal.
        destruct w. unfold set_heap, set_rng. simpl in *. f_equal.
        rewrite app_nil_r. by rewrite insert_id.
      * intros ? [=].
Qed.

(** C2. On a non-empty pool and for [num_phrases = k >= 1], [compose] runs
    exactly [k] iterations from the generator state it is given, each one
    an [Iteration]: a phrase drawn from the whole pool by [random.choice],
    the branch drawn by [random.random() < 0.5], then exactly one of a
    pitch shift by a draw of [random.uniform(-1, 1)] and a time stretch by
    a draw of [random.uniform(0.95, 1.05)]; the generator is left where the
    last iteration left it. The waveform returned is the concatenation of
    the [k] transformed phrases in the order they were drawn; a transform
    that fails ends the call with its error. *)
Theorem compose_iterations self segments variation_strength k w pool :
  RandomSourceLaws ->
  heap w !! segments = Some pool ->
  pool <> [] ->
  1 <= k ->
  exists outcome,
    Iterations pool (sr self) (Z.to_nat k) (rng w)
      (rng (snd (compose self segments variation_strength k w))) outcome
    /\ fst (compose self segments variation_strength k w)
        = (phrases <- outcome ;; Ok (concat phrases))%result
    /\ (forall phrases, outcome = Ok phrases -> length phrases = Z.to_nat k).
Proof.
  intros Hlaws Hpool Hne Hk. rewrite compose_unfold.
  set (new_audio := fresh (dom (heap w))).
  set (w0 := set_heap (<[new_audio := []]> (heap w)) w).
  assert (Hfresh : heap w !! new_audio = None).
  { apply not_elem_of_dom. apply is_fresh. }
  assert (Hdiff : segments <> new_audio) by congruence.
  destruct (py_range_count k) as (indices & Hrange & Hcount).
  destruct (for_each_iterations self segments new_audio pool indices Hlaws Hne Hdiff w0 [])
    as (g' & outcome & Hits & appended & Hrun & Hall).
  { subst w0. simpl. by rewrite lookup_insert_ne. }
  { subst w0. simpl. by rewrite lookup_insert_eq. }
  rewrite Hcount in Hits.
  assert (Hnew : new_list w = (Ok new_audio, w0)) by done.
  rewrite (bind_ok _ _ _ _ _ Hnew).
  assert (Hlift : lift (py_range 0 k 1) w0 = (Ok indices, w0)) by (unfold lift; by rewrite Hrange).
  rewrite (bind_ok _ _ _ _ _ Hlift).
  exists outcome. destruct outcome as [phrases|e].
  - rewrite (bind_ok _ _ _ _ _ Hrun).
    rewrite (Hall phrases eq_refl). simpl app.
    pose proof (Iterations_length _ _ _ _ _ _ Hits) as Hlen.
    unfold np_concatenate, list_items, bind. simpl heap. rewrite lookup_insert_eq.
    destruct phrases as [|phrase phrases]; [simpl in Hlen; lia|].
    simpl. repeat split; [done|]. by intros ? [= <-].
  - rewrite (bind_raise _ _ _ _ _ Hrun). simpl. repeat split; [done|]. intros ? [=].
Qed.

(** The loop body writes to [new_audio] alone, whatever the pool, the
    draws and the transforms do. *)
Lemma compose_body_touches self segments new_audio :
  touches_only new_audio (compose_body self segments new_audio).
Proof.
  unfold compose_body, random_choice.
  apply touches_only_bind.
  { apply touches_only_bind; [apply touches_only_list_items | intros; apply touches_only_choice]. }
  intros seg. apply touches_only_bind; [apply (touches_only_rng _ random)|].
  intros u. apply touches_only_bind; [|intros; apply touches_only_append].
  destruct (u <? 0.5)%float.
  - apply touches_only_bind; [apply (touches_only_rng _ (uniform _ _)) | intros; apply touches_only_pure].
  - apply touches_only_bind; [apply (touches_only_rng _ (uniform _ _)) | intros; apply touches_only_pure].
Qed.

(** [compose] allocates one list object and touches no other. *)
Lemma compose_frame self segments variation_strength k w :
  only_touches (fresh (dom (heap w))) w
    (snd (compose self segments variation_strength k w)).
Proof.
  rewrite compose_unfold.
  set (new_audio := fresh (dom (heap w))).
  set (w0 := set_heap (<[new_audio := []]> (heap w)) w).
  assert (Hnew : new_list w = (Ok new_audio, w0)) by done.
  rewrite (bind_ok _ _ _ _ _ Hnew).
  apply (only_touches_trans _ w w0).
  { repeat split. simpl. intros l' Hl'. by rewrite lookup_insert_ne. }
  apply (touches_only_bind new_audio (lift (py_range 0 k 1))); [apply touches_only_pure|].
  intros indices. apply touches_only_bind; [|intros; apply touches_only_concatenate].
  apply touches_only_for_each. intros _. apply compose_body_touches.
Qed.

(** C9. [compose] does not mutate the pool it is given: the list object
    [segments] holds the same phrases, with the same samples, after the
    call as before, whatever the call returns or raises; every list object
    that existed before is unchanged, and so are the files. A second call
    on the same pool therefore sees the pool the first one saw. *)
Theorem compose_preserves_pool self segments variation_strength k w pool :
  heap w !! segments = Some pool ->
  let w' := snd (compose self segments variation_strength k w) in
  heap w' !! segments = Some pool
  /\ heap w ⊆ heap w'
  /\ files w' = files w
  /\ sf_log w' = sf_log w
  /\ (forall variation_strength' k',
        heap (snd (compose self segments variation_strength' k' w')) !! segments = Some pool).
Proof.
  intros Hpool w'.
  assert (Hkeep : forall v n w1 l items,
             heap w1 !! l = Some items ->
             heap (snd (compose self segments v n w1)) !! l = Some items).
  { intros v n w1 l items Hl.
    destruct (compose_frame self segments v n w1) as (Hheap & _ & _).
    rewrite Hheap; [done|]. intros ->.
    assert (Hfresh : heap w1 !! fresh (dom (heap w1)) = None)
      by apply not_elem_of_dom, is_fresh.
    congruence. }
  destruct (compose_frame self segments variation_strength k w) as (_ & Hfiles & Hlog).
  repeat split; [by apply Hkeep | | done | done | ].
  - apply map_subseteq_spec. intros l items Hl. by apply Hkeep.
  - intros v n. apply Hkeep. by apply Hkeep.
Qed.

(** C8. [variation_strength] is accepted and never read: for the same
    pool, the same [num_phrases] and the same generator state, two calls
    that differ in it alone return the same result and leave the same
    state. *)
Theorem compose_ignores_variation_strength self segments k w (v1 v2 : float) :
  compose self segments v1 k w = compose self segments v2 k w.
Proof. reflexivity. Qed.

(** C10. With [num_phrases = 0] the loop body never runs: no draw is
    made, [new_audio] stays empty, and [np.concatenate] fails on it. The
    call raises instead of returning an empty waveform, whatever the pool
    holds. *)
Theorem compose_zero_phrases_raises self segments variation_strength w :
  fst (compose self segments variation_strength 0 w) = Raise NothingToConcatenate
  /\ rng (snd (compose self segments variation_strength 0 w)) = rng w.
Proof.
  rewrite compose_unfold. unfold np_concatenate, list_items, new_list, lift, bind. simpl.
  rewrite lookup_insert_eq. done.
Qed.

(** A negative [num_phrases] behaves like [0]: [range] is empty. *)
Lemma compose_no_phrases_raises self segments variation_strength k w :
  k <= 0 ->
  fst (compose self segments variation_strength k w) = Raise NothingToConcatenate.
Proof.
  intros Hk. rewrite compose_unfold.
  destruct (py_range_count k) as (indices & Hrange & Hcount).
  destruct indices; [|simpl in Hcount; lia].
  unfold np_concatenate, list_items, new_list, lift, bind. rewrite Hrange. simpl.
  rewrite lookup_insert_eq. done.
Qed.

(** C3, as the code has it. On an empty pool and for [num_phrases >= 1],
    the first [random.choice] fails with [EmptyPoolError], before any
    draw. *)
Theorem compose_empty_pool_raises self segments variation_strength k w :
  heap w !! segments = Some [] ->
  1 <= k ->
  fst (compose self segments variation_strength k w) = Raise EmptyPoolError
  /\ rng (snd (compose self segments variation_strength k w)) = rng w.
Proof.
  intros Hpool Hk.
  destruct (py_range_count k) as (indices & Hrange & Hcount).
  destruct indices as [|i indices]; [simpl in Hcount; lia|].
  assert (Hfresh : heap w !! fresh (dom (heap w)) = None)
    by apply not_elem_of_dom, is_fresh.
  assert (Hdiff : fresh (dom (heap w)) <> segments) by congruence.
  set (w0 := set_heap (<[fresh (dom (heap w)) := []]> (heap w)) w).
  assert (Hrun : compose self segments variation_strength k w = (Raise EmptyPoolError, w0)).
  { rewrite compose_unfold.
    unfold bind at 1. unfold new_list. unfold bind at 1. unfold lift. rewrite Hrange.
    simpl for_each. unfold compose_body, random_choice, list_items, bind. simpl.
    rewrite lookup_insert_ne by done. rewrite Hpool.
    unfold random_choice_of, raise. simpl. done. }
  rewrite Hrun. done.
Qed.

End ComposerFacts.

(** ** The Batch Transformer *)

Section GeneratorFacts.
Context `{RandomSource} `{Externals}.
Implicit Types (self : AudioGenerator.t) (w : World).
Import AudioGenerator.

(** C5. [_transform_audio] draws one pitch-shift amount from
    [[-2, -1, 1, 2]] by [random.choice] and one rate by
    [random.uniform(0.9, 1.1)], which lies in [[0.9, 1.1]]; it shifts the
    whole waveform by that amount, then stretches the shifted signal by
    that rate. Both transforms are applied, in that order, in every call;
    the result is the stretch's, and an error of either transform is the
    call's error. *)
Theorem transform_audio_pitch_then_stretch self y w :
  RandomSourceLaws ->
  exists i g1 n_steps rate g2,
    randbelow 4 (rng w) = (i, g1)
    /\ nth_error [-2; -1; 1; 2] (Z.to_nat i) = Some n_steps
    /\ In n_steps [-2; -1; 1; 2]
    /\ uniform 0.9%float 1.1%float g1 = (rate, g2)
    /\ (0.9 <=? rate)%float = true
    /\ (rate <=? 1.1)%float = true
    /\ _transform_audio self y w =
         ((y_shifted <- pitch_shift y (sr self) (Z2F n_steps) ;;
           time_stretch y_shifted rate)%result,
          set_rng g2 w).
Proof.
  intros Hlaws.
  destruct (randbelow 4 (rng w)) as [i g1] eqn:Ei.
  pose proof (randbelow_range 4 (rng w) ltac:(lia)) as Hi. rewrite Ei in Hi. simpl in Hi.
  destruct (py_getitem_in_range [-2; -1; 1; 2] i Hi) as (n_steps & Hnth & Hget).
  destruct (uniform 0.9%float 1.1%float g1) as [rate g2] eqn:Er.
  pose proof (uniform_range 0.9%float 1.1%float g1 eq_refl) as [Hlo Hhi].
  rewrite Er in Hlo, Hhi. simpl in Hlo, Hhi.
  exists i, g1, n_steps, rate, g2.
  repeat split; try done.
  - eapply nth_error_In; eauto.
  - unfold _transform_audio, random_choice_of.
    change (py_len [-2; -1; 1; 2]) with 4. simpl (4 =? 0).
    unfold bind at 1. unfold bind at 1. unfold random_randbelow. rewrite Ei.
    unfold lift at 1. rewrite Hget.
    unfold bind at 1. unfold random_uniform. simpl rng. rewrite Er.
    unfold bind, lift, ret.
    destruct (pitch_shift y (sr self) (Z2F n_steps)) as [y_shifted|e]; [|done]. simpl.
    by destruct (time_stretch y_shifted rate).
Qed.

Lemma transform_audio_touches l self y : touches_only l (_transform_audio self y).
Proof.
  unfold _transform_audio.
  apply touches_only_bind; [apply touches_only_choice|]. intros n.
  apply touches_only_bind; [apply (touches_only_rng _ (uniform _ _))|]. intros rate.
  apply touches_only_bind; [apply touches_only_pure|]. intros y1.
  apply touches_only_bind; [apply touches_only_pure|]. intros y2.
  apply touches_only_pure.
Qed.

Lemma generate_unfold self :
  generate self =
  (names <- (fun w => (os_listdir (input_dir self) (files w), w)) ;;
   for_each names (generate_body self))%py.
Proof. reflexivity. Qed.











Lemma transform_audio_returns self y w :
  RandomSourceLaws ->
  (forall y rate n_steps, exists y', pitch_shift y rate n_steps = Ok y') ->
  (forall y rate, exists y', time_stretch y rate = Ok y') ->
  exists out g, _transform_audio self y w = (Ok out, set_rng g w).
Proof.
  intros Hlaws Hps Hts.
  destruct (randbelow 4 (rng w)) as [i g1] eqn:Ei.
  pose proof (randbelow_range 4 (rng w) ltac:(lia)) as Hi. rewrite Ei in Hi. simpl in Hi.
  destruct (py_getitem_in_range [-2; -1; 1; 2] i Hi) as (n_steps & _ & Hget).
  destruct (uniform 0.9%float 1.1%float g1) as [rate g2] eqn:Er.
  destruct (Hps y (sr self) (Z2F n_steps)) as [y1 Hy1].
  destruct (Hts y1 rate) as [y2 Hy2].
  exists y2, g2.
  unfold _transform_audio, random_choice_of.
  change (py_len [-2; -1; 1; 2]) with 4. simpl (4 =? 0).
  unfold bind at 1. unfold bind at 1. unfold random_randbelow. rewrite Ei.
  unfold lift at 1. rewrite Hget.
  unfold bind at 1. unfold random_uniform. simpl rng. rewrite Er.
  unfold bind, lift, ret. by rewrite Hy1, Hy2.
Qed.

Lemma generate_body_succeeds self file w :
  RandomSourceLaws ->
  (forall d rate, exists y, wav_decode d rate = Ok y) ->
  (forall y rate n_steps, exists y', pitch_shift y rate n_steps = Ok y') ->
  (forall y rate, exists y', time_stretch y rate = Ok y') ->
  (forall path y rate fs, write_error path y rate fs (os w) = None) ->
  (is_wav file = true -> is_Some (files w !! os_path_join (input_dir self) file)) ->
  exists w',
    generate_body self file w = (Ok tt, w')
    /\ os w' = os w
    /\ (forall path, is_Some (files w !! path) -> is_Some (files w' !! path)).
Proof.
  intros Hlaws Hdec Hps Hts Hwr Hdisk.
  unfold generate_body. fold (is_wav file).
  destruct (is_wav file) eqn:Ewav; [|by exists w].
  destruct (Hdisk eq_refl) as [d Hd]. cbv zeta.
  destruct (Hdec d (sr self)) as [y Hy].
  rewrite (bind_ok _ _ w y w) by (unfold librosa_load; by rewrite Hd, Hy).
  destruct (transform_audio_returns self y w Hlaws Hps Hts) as (y2 & g2 & Hrun).
  rewrite (bind_ok _ _ _ _ _ Hrun).
  unfold sf_write. simpl. rewrite Hwr.
  eexists. split; [reflexivity|]. split; [done|].
  intros path Hpath. simpl. apply lookup_insert_is_Some'. by right.
Qed.

(** With collaborators that do not fail and every listed WAV file on
    disk, [generate] returns normally. *)
Lemma generate_succeeds self w names :
  RandomSourceLaws ->
  (forall d rate, exists y, wav_decode d rate = Ok y) ->
  (forall y rate n_steps, exists y', pitch_shift y rate n_steps = Ok y') ->
  (forall y rate, exists y', time_stretch y rate = Ok y') ->
  (forall path y rate fs, write_error path y rate fs (os w) = None) ->
  os_listdir (input_dir self) (files w) = Ok names ->
  (forall file, In file names -> is_wav file = true ->
     is_Some (files w !! os_path_join (input_dir self) file)) ->
  fst (generate self w) = Ok tt.
Proof.
  intros Hlaws Hdec Hps Hts Hwr Els Hdisk. rewrite generate_unfold.
  rewrite (bind_ok _ _ w names w) by (by rewrite Els).
  clear Els. revert w Hwr Hdisk.
  induction names as [|file names IH]; intros w Hwr Hdisk; [done|].
  simpl for_each.
  destruct (generate_body_succeeds self file w Hlaws Hdec Hps Hts Hwr)
    as (w' & Hrun & Hos & Hkeep).
  { intros Hwav. apply Hdisk; [by left | done]. }
  rewrite (bind_ok _ _ _ _ _ Hrun). apply IH.
  - intros path y rate fs. rewrite Hos. apply Hwr.
  - intros file' Hin Hwav'. apply Hkeep, Hdisk; [by right | done].
Qed.

End GeneratorFacts.

(** ** Purity of the Segmenter *)

Section SegmenterPurity.
Context `{RandomSource} `{Externals}.
Import StyleComposer.

(** C7. [segment_and_score] reads its arguments and [self.sr] and nothing
    else: run in any state of the process it leaves that state, generator
    included, as it was; run in any two states it returns the same
    phrases; and run after any other call it returns what it returns on
    its own. *)
Theorem segment_and_score_pure (self : t) (y : list sample) (L : float) :
  (forall w : World, lift (segment_and_score self y L) w = (segment_and_score self y L, w))
  /\ (forall w1 w2 : World,
        fst (lift (segment_and_score self y L) w1) = fst (lift (segment_and_score self y L) w2))
  /\ (forall (A : Type) (prior : M A) (w : World),
        bind prior (fun _ => lift (segment_and_score self y L)) w =
        match prior w with
        | (Ok _, w') => (segment_and_score self y L, w')
        | (Raise e, w') => (Raise e, w')
        end).
Proof.
  split; [|split].
  - intros w. reflexivity.
  - intros w1 w2. reflexivity.
  - intros A prior w. unfold bind. reflexivity.
Qed.

End SegmenterPurity.

(** ** More on the Segmenter *)

Section SegmenterMore.
Context {sample : Type}.
Implicit Types (y : list sample) (self : StyleComposer.t).
Import StyleComposer.

(** For a positive phrase length the result is the list of the full
    windows, for every waveform. *)
Lemma segment_and_score_windows self L pl :
  phrase_len L (sr self) = Ok pl ->
  0 < pl ->
  forall y,
    segment_and_score self y L
    = Ok (map (window y (Z.to_nat pl)) (seq 0 (length y / Z.to_nat pl))).
Proof.
  unfold phrase_len. intros Hpl Hpos y.
  destruct (py_mul_float_int L (sr self)) as [x|] eqn:Hx; [|done]. simpl in Hpl.
  destruct (py_int_of_floor x pl Hpl) as (n & Hn & _ & Heq).
  rewrite (Heq ltac:(lia)) in Hn.
  rewrite (segment_and_score_cases self y L x pl Hx Hn).
  destruct (Z.eqb_spec pl 0) as [?|_]; [lia|].
  destruct (Z.ltb_spec pl 0) as [?|_]; [lia|]. done.
Qed.

Lemma segment_and_score_count self y L pl :
  phrase_len L (sr self) = Ok pl ->
  0 < pl ->
  exists phrases,
    segment_and_score self y L = Ok phrases
    /\ py_len phrases = py_len y / pl
    /\ Forall (fun phrase => py_len phrase = pl) phrases.
Proof.
  intros Hpl Hpos. rewrite (segment_and_score_windows self L pl Hpl Hpos y).
  eexists. split; [reflexivity|].
  set (n := Z.to_nat pl). assert (Hn : Z.of_nat n = pl) by lia.
  unfold py_len. split.
  - rewrite length_map, length_seq, <- Hn. apply Nat2Z.inj_div.
  - apply List.Forall_forall. intros phrase Hin.
    apply in_map_iff in Hin as (k & <- & Hk). apply in_seq in Hk.
    rewrite window_full; lia.
Qed.

Lemma map_seq_from {B} (f : nat -> B) (m q : nat) :
  map f (seq m q) = map (fun k => f (m + k)%nat) (seq 0 q).
Proof.
  rewrite <- (Nat.add_0_r m) at 1. generalize 0%nat as b.
  induction q as [|q IH]; intros b; simpl; [done|].
  f_equal. rewrite <- IH. f_equal. f_equal. lia.
Qed.

Lemma window_take y n q k :
  (k < q)%nat -> window (take (q * n) y) n k = window y n k.
Proof.
  intros Hk. unfold window. rewrite skipn_firstn_comm, take_take. f_equal. nia.
Qed.

Lemma window_app_l y1 y2 n m k :
  length y1 = (m * n)%nat -> (k < m)%nat ->
  window (y1 ++ y2) n k = window y1 n k.
Proof.
  intros Hlen Hk. unfold window.
  rewrite drop_app_le by nia. rewrite take_app_le; [done|].
  rewrite length_drop. nia.
Qed.

Lemma window_app_r y1 y2 n m k :
  length y1 = (m * n)%nat ->
  window (y1 ++ y2) n (m + k) = window y2 n k.
Proof.
  intros Hlen. unfold window. rewrite drop_app_ge by nia. do 2 f_equal. nia.
Qed.

End SegmenterMore.

Section SegmenterProperties.
Context {sample : Type}.
Implicit Types (y : list sample) (self : StyleComposer.t).
Import StyleComposer.

(** X1. For a positive phrase length, the phrases laid end to end are a
    prefix of the waveform, and what is dropped after it is shorter than
    one phrase. *)
Theorem segment_and_score_remainder self y L pl :
  phrase_len L (sr self) = Ok pl ->
  0 < pl ->
  exists phrases,
    segment_and_score self y L = Ok phrases
    /\ y = concat phrases ++ drop (length (concat phrases)) y
    /\ py_len (concat phrases) = py_len y / pl * pl
    /\ 0 <= py_len y - py_len (concat phrases) < pl.
Proof.
  intros Hpl Hpos. rewrite (segment_and_score_windows self L pl Hpl Hpos y).
  eexists. split; [reflexivity|].
  set (n := Z.to_nat pl). assert (Hn : (0 < n)%nat) by lia.
  pose proof (Nat.div_mod_eq (length y) n) as E.
  pose proof (Nat.mod_upper_bound (length y) n ltac:(lia)) as B.
  rewrite concat_windows by nia.
  assert (Hlen : length (take (length y / n * n) y) = (length y / n * n)%nat)
    by (rewrite length_take; nia).
  split; [by rewrite Hlen, take_drop|].
  unfold py_len. rewrite Hlen.
  replace pl with (Z.of_nat n) by lia. rewrite <- Nat2Z.inj_div. split; nia.
Qed.

(** X2. Segmenting the phrases laid end to end gives the phrases back. *)
Theorem segment_and_score_concat self y L pl phrases :
  phrase_len L (sr self) = Ok pl ->
  0 < pl ->
  segment_and_score self y L = Ok phrases ->
  segment_and_score self (concat phrases) L = Ok phrases.
Proof.
  intros Hpl Hpos. rewrite !(segment_and_score_windows self L pl Hpl Hpos).
  intros [= <-]. f_equal.
  set (n := Z.to_nat pl). assert (Hn : (0 < n)%nat) by lia.
  pose proof (Nat.div_mod_eq (length y) n) as E.
  rewrite concat_windows by nia.
  assert (Hlen : length (take (length y / n * n) y) = (length y / n * n)%nat)
    by (rewrite length_take; nia).
  rewrite Hlen, Nat.div_mul by lia.
  apply map_ext_in. intros k Hk. apply in_seq in Hk. apply window_take. lia.
Qed.

(** X3. Segmentation distributes over the concatenation of two waveforms
    when the first holds a whole number of phrases. *)
Theorem segment_and_score_app self y1 y2 L pl m :
  phrase_len L (sr self) = Ok pl ->
  0 < pl ->
  py_len y1 = m * pl ->
  exists phrases1 phrases2,
    segment_and_score self y1 L = Ok phrases1
    /\ segment_and_score self y2 L = Ok phrases2
    /\ segment_and_score self (y1 ++ y2) L = Ok (phrases1 ++ phrases2).
Proof.
  intros Hpl Hpos Hlen. rewrite !(segment_and_score_windows self L pl Hpl Hpos).
  do 2 eexists. split; [reflexivity|]. split; [reflexivity|]. f_equal.
  set (n := Z.to_nat pl) in *. assert (Hn : (0 < n)%nat) by lia.
  unfold py_len in Hlen.
  assert (Hm : length y1 = (Z.to_nat m * n)%nat) by nia.
  rewrite length_app, Hm, Nat.div_add_l, Nat.div_mul by lia.
  rewrite seq_app, map_app. f_equal.
  - apply map_ext_in. intros k Hk. apply in_seq in Hk.
    apply (window_app_l y1 y2 n (Z.to_nat m)); [done | lia].
  - simpl. rewrite map_seq_from. apply map_ext. intros k.
    by apply window_app_r.
Qed.

(** X4. A segment length that is not a number makes [int] fail: the call
    raises [ValueError], whatever the waveform. *)
Theorem segment_and_score_nan self y :
  (exists f, py_float_of_int (sr self) = Ok f) ->
  segment_and_score self y nan
  = Raise (ValueError "cannot convert float NaN to integer").
Proof.
  intros [f Hf]. unfold segment_and_score, py_mul_float_int. rewrite Hf. simpl.
  unfold py_int. rewrite FloatAxioms.mul_spec. done.
Qed.

End SegmenterProperties.

(** ** File names *)

Section FileNames.
Implicit Types (s a b : string).

Lemma string_length_app a b :
  String.length (a ++ b) = (String.length a + String.length b)%nat.
Proof. induction a as [|c a IH]; simpl; [done|]. by rewrite IH. Qed.

Lemma substring_all b : String.substring 0 (String.length b) b = b.
Proof. induction b as [|c b IH]; simpl; [done|]. by rewrite IH. Qed.

Lemma substring_app_r a b :
  String.substring (String.length a) (String.length b) (a ++ b) = b.
Proof. induction a as [|c a IH]; simpl; [apply substring_all | done]. Qed.

Lemma substring_split s i :
  (i <= String.length s)%nat ->
  s = (String.substring 0 i s ++ String.substring i (String.length s - i) s)%string.
Proof.
  revert i. induction s as [|c s IH]; intros i Hi; simpl in Hi.
  - by destruct i.
  - destruct i as [|i]; simpl.
    + by rewrite substring_all.
    + change (String c (String.substring 0 i s) ++ ?t)%string
        with (String c (String.substring 0 i s ++ t)).
      f_equal. apply IH. lia.
Qed.

Lemma py_lower_app a b : py_lower (a ++ b) = (py_lower a ++ py_lower b)%string.
Proof. induction a as [|c a IH]; simpl; [done|]. by rewrite IH. Qed.

Lemma py_lower_length s : String.length (py_lower s) = String.length s.
Proof. induction s as [|c s IH]; simpl; [done|]. by rewrite IH. Qed.

Lemma py_lower_substring i k s :
  py_lower (String.substring i k s) = String.substring i k (py_lower s).
Proof.
  revert i k. induction s as [|c s IH]; intros i k.
  - by destruct i, k.
  - destruct i as [|i]; [destruct k as [|k]|]; simpl; [done| |apply IH].
    f_equal. apply IH.
Qed.

Lemma is_wav_intro stem ext :
  py_lower ext = ".wav"%string -> is_wav (stem ++ ext) = true.
Proof.
  intros Hext. unfold is_wav, py_endswith.
  rewrite py_lower_app, Hext, string_length_app. simpl String.length.
  apply andb_true_intro. split; [apply Nat.leb_le; lia|].
  replace (String.length (py_lower stem) + 4 - 4)%nat with (String.length (py_lower stem)) by lia.
  pose proof (substring_app_r (py_lower stem) ".wav") as E.
  simpl (String.length ".wav") in E. rewrite E. done.
Qed.

Lemma is_wav_elim file :
  is_wav file = true ->
  exists stem ext, file = (stem ++ ext)%string /\ py_lower ext = ".wav"%string.
Proof.
  unfold is_wav, py_endswith. rewrite py_lower_length. simpl String.length.
  intros H. apply andb_prop in H as [Hlen Heq].
  apply Nat.leb_le in Hlen. apply String.eqb_eq in Heq.
  exists (String.substring 0 (String.length file - 4) file),
         (String.substring (String.length file - 4) 4 file).
  split.
  - rewrite (substring_split file (String.length file - 4)) at 1 by lia.
    do 2 f_equal. lia.
  - by rewrite py_lower_substring.
Qed.

(** X5. The files [generate] and [load_all] select are exactly those whose
    name ends in [.wav] written in any mix of upper and lower case. *)
Theorem is_wav_iff file :
  is_wav file = true <->
  exists stem ext, file = (stem ++ ext)%string /\ py_lower ext = ".wav"%string.
Proof.
  split; [apply is_wav_elim|]. intros (stem & ext & -> & Hext). by apply is_wav_intro.
Qed.

(** X6. The name [generate] derives for the output of a WAV file is a WAV
    name again: with the output directory equal to the input directory,
    the outputs of one run are inputs of the next. *)
Theorem generated_name_is_wav file :
  is_wav file = true -> is_wav ("generated_" ++ file) = true.
Proof.
  intros (stem & ext & -> & Hext)%is_wav_elim.
  change ("generated_" ++ (stem ++ ext))%string with (("generated_" ++ stem) ++ ext)%string.
  by apply is_wav_intro.
Qed.

End FileNames.

(** ** More on the Composer *)

Section ComposerMore.
Context `{RandomSource} `{Externals}.
Implicit Types (self : StyleComposer.t) (w : World) (pool : list (list sample)).
Import StyleComposer.

(** The whole run of [compose] on a non-empty pool, state included. *)
Lemma compose_outcome self segments variation_strength k w pool :
  RandomSourceLaws ->
  heap w !! segments = Some pool ->
  pool <> [] ->
  1 <= k ->
  exists g' outcome appended,
    Iterations pool (sr self) (Z.to_nat k) (rng w) g' outcome
    /\ compose self segments variation_strength k w
       = ((phrases <- outcome ;; Ok (concat phrases))%result,
          set_heap (<[fresh (dom (heap w)) := appended]> (heap w)) (set_rng g' w))
    /\ heap w !! fresh (dom (heap w)) = None.
Proof.
  intros Hlaws Hpool Hne Hk. rewrite compose_unfold.
  set (new_audio := fresh (dom (heap w))).
  set (w0 := set_heap (<[new_audio := []]> (heap w)) w).
  assert (Hfresh : heap w !! new_audio = None).
  { apply not_elem_of_dom. apply is_fresh. }
  assert (Hdiff : segments <> new_audio) by congruence.
  destruct (py_range_count k) as (indices & Hrange & Hcount).
  destruct (for_each_iterations self segments new_audio pool indices Hlaws Hne Hdiff w0 [])
    as (g' & outcome & Hits & appended & Hrun & Hall).
  { subst w0. simpl. by rewrite lookup_insert_ne. }
  { subst w0. simpl. by rewrite lookup_insert_eq. }
  rewrite Hcount in Hits.
  assert (Hnew : new_list w = (Ok new_audio, w0)) by done.
  rewrite (bind_ok _ _ _ _ _ Hnew).
  assert (Hlift : lift (py_range 0 k 1) w0 = (Ok indices, w0)) by (unfold lift; by rewrite Hrange).
  rewrite (bind_ok _ _ _ _ _ Hlift).
  assert (Hw : set_heap (<[new_audio := [] ++ appended]> (heap w0)) (set_rng g' w0)
               = set_heap (<[new_audio := appended]> (heap w)) (set_rng g' w)).
  { subst w0. unfold set_heap, set_rng. simpl. by rewrite insert_insert_eq. }
  rewrite Hw in Hrun.
  exists g', outcome, appended. split; [done|]. split; [|done].
  destruct outcome as [phrases|e].
  - rewrite (bind_ok _ _ _ _ _ Hrun).
    rewrite (Hall phrases eq_refl).
    pose proof (Iterations_length _ _ _ _ _ _ Hits) as Hlen.
    unfold np_concatenate, list_items, bind. simpl heap. rewrite lookup_insert_eq.
    destruct phrases as [|phrase phrases]; [simpl in Hlen; lia|]. done.
  - by rewrite (bind_raise _ _ _ _ _ Hrun).
Qed.

Lemma Iteration_Transformed pool rate g g' r :
  Iteration pool rate g g' r -> Transformed pool rate r.
Proof.
  intros Hit. inversion Hit as [? i ? seg ? ? n_steps ? _ _ Hnth _ _ _ Hlo Hhi
                              | ? i ? seg ? ? amount ? _ _ Hnth _ _ _ Hlo Hhi]; subst.
  - exists seg. split; [by eapply nth_error_In|]. left. by exists n_steps.
  - exists seg. split; [by eapply nth_error_In|]. right. by exists amount.
Qed.

Lemma Iterations_Transformed pool rate k g g' outcome :
  Iterations pool rate k g g' outcome ->
  match outcome with
  | Ok phrases => Forall (fun phrase => Transformed pool rate (Ok phrase)) phrases
  | Raise e => Transformed pool rate (Raise e)
  end.
Proof.
  induction 1 as [g | k g g1 g2 phrase phrases Hit _ IH | k g g1 e Hit
                  | k g g1 g2 phrase e _ _ IH]; simpl in *.
  - constructor.
  - constructor; [by eapply Iteration_Transformed | done].
  - by eapply Iteration_Transformed.
  - done.
Qed.

(** X7. On a non-empty pool and for [num_phrases >= 1], [compose] raises
    no error of its own: an error it ends with is the error of a pitch
    shift or of a time stretch of a phrase of the pool. *)
Theorem compose_error_is_transform_error self segments variation_strength k w pool e :
  RandomSourceLaws ->
  heap w !! segments = Some pool ->
  pool <> [] ->
  1 <= k ->
  fst (compose self segments variation_strength k w) = Raise e ->
  Transformed pool (sr self) (Raise e).
Proof.
  intros Hlaws Hpool Hne Hk.
  destruct (compose_outcome self segments variation_strength k w pool Hlaws Hpool Hne Hk)
    as (g' & outcome & appended & Hits & -> & _).
  apply Iterations_Transformed in Hits.
  destruct outcome as [phrases|e']; simpl; [done|]. by intros [= <-].
Qed.

(** X8. A waveform that [compose] returns is [num_phrases] pieces laid end
    to end, each one a pitch shift or a time stretch, within the bounds,
    of a phrase of the pool. *)
Theorem compose_output_pieces self segments variation_strength k w pool out :
  RandomSourceLaws ->
  heap w !! segments = Some pool ->
  pool <> [] ->
  1 <= k ->
  fst (compose self segments variation_strength k w) = Ok out ->
  exists pieces,
    out = concat pieces
    /\ py_len pieces = k
    /\ Forall (fun piece => Transformed pool (sr self) (Ok piece)) pieces.
Proof.
  intros Hlaws Hpool Hne Hk.
  destruct (compose_outcome self segments variation_strength k w pool Hlaws Hpool Hne Hk)
    as (g' & outcome & appended & Hits & -> & _).
  destruct outcome as [phrases|e']; simpl; [|done]. intros [= <-].
  exists phrases. split; [done|]. split.
  - unfold py_len. rewrite (Iterations_length _ _ _ _ _ _ Hits). lia.
  - by apply Iterations_Transformed in Hits.
Qed.

(** X9. When no transform of a phrase of the pool fails, [compose]
    returns a waveform. *)
Theorem compose_succeeds self segments variation_strength k w pool :
  RandomSourceLaws ->
  heap w !! segments = Some pool ->
  pool <> [] ->
  1 <= k ->
  (forall e, ~ Transformed pool (sr self) (Raise e)) ->
  exists out, fst (compose self segments variation_strength k w) = Ok out.
Proof.
  intros Hlaws Hpool Hne Hk Hok.
  destruct (compose_outcome self segments variation_strength k w pool Hlaws Hpool Hne Hk)
    as (g' & outcome & appended & Hits & -> & _).
  apply Iterations_Transformed in Hits.
  destruct outcome as [phrases|e]; simpl; [by eexists|]. by destruct (Hok e).
Qed.

(** X25. A negative [num_phrases] is no error of its own: [range] is
    empty, the loop does not run, and the call fails like [num_phrases = 0]
    on the empty concatenation, without a draw. *)
Theorem compose_negative_phrases_raises self segments variation_strength k w :
  k < 0 ->
  fst (compose self segments variation_strength k w) = Raise NothingToConcatenate
  /\ rng (snd (compose self segments variation_strength k w)) = rng w.
Proof.
  intros Hk. rewrite compose_unfold.
  destruct (py_range_count k) as (indices & Hrange & Hcount).
  destruct indices; [|simpl in Hcount; lia].
  unfold np_concatenate, list_items, new_list, lift, bind. rewrite Hrange. simpl.
  rewrite lookup_insert_eq. done.
Qed.

End ComposerMore.

(** ** More on the Batch Transformer *)

Section GeneratorMore.
Context `{RandomSource} `{Externals}.
Implicit Types (self : AudioGenerator.t) (w : World).
Import AudioGenerator.

Lemma touches_only_same_store {A} (m : M A) w :
  (forall l, touches_only l m) -> same_store w (snd (m w)).
Proof.
  intros Hm. destruct (Hm 1%positive w) as (_ & Hfiles & Hlog).
  split; [|done]. apply map_eq. intros l.
  destruct (Hm (Pos.succ l) w) as (Hheap & _). apply Hheap. lia.
Qed.

Lemma transform_audio_same_store self y w :
  same_store w (snd (_transform_audio self y w)).
Proof.
  apply touches_only_same_store. intros l. apply transform_audio_touches.
Qed.

(** X10. [_transform_audio] only draws: it writes no file, calls the
    writer not once, and changes no list object. *)
Theorem transform_audio_frame self y w :
  same_store w (snd (_transform_audio self y w)).
Proof.
  destruct (transform_audio_same_store self y w) as (Hheap & Hfiles & Hlog).
  by repeat split.
Qed.


Lemma replay_app outs1 outs2 (fs : gmap string filedata) :
  replay (outs1 ++ outs2) fs = replay outs2 (replay outs1 fs).
Proof. unfold replay. apply fold_left_app. Qed.








End GeneratorMore.

(** ** The loader *)

Section ManagerFacts.
Context `{RandomSource} `{Externals} `{!Trimmer}.
Implicit Types (self : AudioManager.t) (w : World).
Import AudioManager.

Lemma load_all_unfold self :
  load_all self =
  (names <- (fun w => (os_listdir (input_dir self) (files w), w)) ;;
   for_fold names [] (load_all_body self))%py.
Proof. reflexivity. Qed.

(** One pass through the loop body of [load_all]: the state is left as it
    is; a WAV file is loaded, trimmed and appended, any other is skipped. *)
Lemma load_all_body_cases self audio_data file w :
  snd (load_all_body self audio_data file w) = w
  /\ match fst (load_all_body self audio_data file w) with
     | Ok audio_data' =>
         if is_wav file
         then exists y, audio_data' = audio_data ++ [(file, y)] /\ Loaded self w file y
         else audio_data' = audio_data
     | Raise _ => is_wav file = true
     end.
Proof.
  unfold load_all_body. fold (is_wav file).
  destruct (is_wav file) eqn:Ewav; [|done]. cbv zeta.
  unfold bind, librosa_load, lift, ret.
  destruct (files w !! os_path_join (input_dir self) file) as [d|] eqn:Ed; [|done].
  destruct (wav_decode d (sr self)) as [y0|e] eqn:Ey0; [|done].
  destruct (trim y0) as [y|e] eqn:Ey; [|done]. simpl.
  split; [done|]. exists y. split; [done|]. by exists d, y0.
Qed.

Lemma load_all_loop self names :
  forall audio_data w,
    snd (for_fold names audio_data (load_all_body self) w) = w
    /\ forall result,
         fst (for_fold names audio_data (load_all_body self) w) = Ok result ->
         exists loaded,
           result = audio_data ++ loaded
           /\ map fst loaded = List.filter is_wav names
           /\ Forall (fun item => Loaded self w item.1 item.2) loaded.
Proof.
  induction names as [|file names IH]; intros audio_data w.
  - simpl. split; [done|]. intros result [= <-]. exists []. by rewrite app_nil_r.
  - simpl for_fold. simpl List.filter.
    destruct (load_all_body_cases self audio_data file w) as (Hw & Hres).
    destruct (load_all_body self audio_data file w) as [[acc|e] w1] eqn:Erun;
      simpl in Hw, Hres; subst w1.
    + rewrite (bind_ok _ _ _ _ _ Erun).
      destruct (IH acc w) as (Hw' & Hres'). split; [done|].
      intros result Hok. destruct (Hres' result Hok) as (loaded & -> & Hnames & Hall).
      destruct (is_wav file).
      * destruct Hres as (y & -> & Hy). exists ((file, y) :: loaded).
        rewrite <- app_assoc. simpl. repeat split; [by f_equal | by constructor].
      * subst acc. by exists loaded.
    + rewrite (bind_raise _ _ _ _ _ Erun). simpl. split; [done|]. intros ? [=].
Qed.

Lemma load_all_run self w :
  exists r, load_all self w = (r, w).
Proof.
  rewrite load_all_unfold.
  destruct (os_listdir (input_dir self) (files w)) as [names|e] eqn:Els.
  - rewrite (bind_ok _ _ w names w) by (by rewrite Els).
    destruct (load_all_loop self names [] w) as (Hw & _).
    destruct (for_fold names [] (load_all_body self) w) as [r w']. simpl in Hw. subst w'.
    by exists r.
  - rewrite (bind_raise _ _ w e w) by (by rewrite Els). by eexists.
Qed.

(** What [load_all] returns depends on the files alone. *)
Lemma load_all_same_files self w w' audio_data :
  files w' = files w ->
  fst (load_all self w) = Ok audio_data ->
  fst (load_all self w') = Ok audio_data.
Proof.
  intros Hfiles. rewrite !load_all_unfold. unfold bind. rewrite Hfiles.
  destruct (os_listdir (input_dir self) (files w)) as [names|e]; [|done].
  generalize (@nil (string * list sample)) as acc.
  induction names as [|file names IH]; intros acc; [done|].
  simpl for_fold.
  destruct (load_all_body_cases self acc file w) as (Hw & _).
  destruct (load_all_body_cases self acc file w') as (Hw' & _).
  assert (Hbody : forall acc1, fst (load_all_body self acc file w) = Ok acc1 ->
                    fst (load_all_body self acc file w') = Ok acc1).
  { unfold load_all_body.
    destruct (py_endswith (py_lower file) ".wav"); [|done]. cbv zeta.
    unfold bind, librosa_load, lift, ret. rewrite Hfiles.
    destruct (files w !! os_path_join (input_dir self) file) as [d|]; [|done].
    destruct (wav_decode d (sr self)) as [y0|e]; [|done].
    by destruct (trim y0). }
  destruct (load_all_body self acc file w) as [[acc1|e] w1] eqn:Erun; simpl in Hw; subst w1.
  - rewrite (bind_ok _ _ _ _ _ Erun).
    specialize (Hbody acc1 eq_refl).
    destruct (load_all_body self acc file w') as [r w1'] eqn:Erun'. simpl in Hw', Hbody.
    subst r w1'. rewrite (bind_ok _ _ _ _ _ Erun'). apply IH.
  - by rewrite (bind_raise _ _ _ _ _ Erun).
Qed.

(** X14. [load_all] only reads: the state after the call is the state
    before, whether it returns or raises. What it returns is one pair per
    WAV file of the listing, in the order of the listing: the file's name
    and the file as loaded and trimmed. *)
Theorem load_all_reads self w :
  snd (load_all self w) = w
  /\ forall audio_data,
       fst (load_all self w) = Ok audio_data ->
       exists names,
         os_listdir (input_dir self) (files w) = Ok names
         /\ map fst audio_data = List.filter is_wav names
         /\ Forall (fun item => Loaded self w item.1 item.2) audio_data.
Proof.
  rewrite load_all_unfold.
  destruct (os_listdir (input_dir self) (files w)) as [names|e] eqn:Els.
  - rewrite (bind_ok _ _ w names w) by (by rewrite Els).
    destruct (load_all_loop self names [] w) as (Hw & Hres). split; [done|].
    intros audio_data Hok. destruct (Hres audio_data Hok) as (loaded & -> & Hnames & Hall).
    by exists names.
  - rewrite (bind_raise _ _ w e w) by (by rewrite Els). simpl. split; [done|]. intros ? [=].
Qed.

Lemma load_file_loaded self file_name w y :
  Loaded self w file_name y -> load_file self file_name w = (Ok y, w).
Proof.
  intros (d & y0 & Hd & Hy0 & Hy).
  unfold load_file, bind, os_path_exists, librosa_load, lift. cbv zeta.
  rewrite Hd. simpl. by rewrite Hd, Hy0, Hy.
Qed.

(** X16. [load_file] agrees with [load_all]: for every pair that
    [load_all] returns, [load_file] of the name returns the waveform. *)
Theorem load_file_of_load_all self w audio_data file y :
  fst (load_all self w) = Ok audio_data ->
  In (file, y) audio_data ->
  load_file self file w = (Ok y, w).
Proof.
  rewrite load_all_unfold.
  destruct (os_listdir (input_dir self) (files w)) as [names|e] eqn:Els.
  - rewrite (bind_ok _ _ w names w) by (by rewrite Els).
    destruct (load_all_loop self names [] w) as (_ & Hres).
    intros Hok Hin. destruct (Hres audio_data Hok) as (loaded & -> & _ & Hall).
    rewrite List.Forall_forall in Hall. by apply (load_file_loaded self file w y), (Hall (file, y)).
  - rewrite (bind_raise _ _ w e w) by (by rewrite Els). done.
Qed.


(** X24. With a decoder and a trimmer that do not fail and every listed
    WAV file on disk, [load_all] returns. *)
Theorem load_all_succeeds self w names :
  (forall d rate, exists y, wav_decode d rate = Ok y) ->
  (forall y, exists y', trim y = Ok y') ->
  os_listdir (input_dir self) (files w) = Ok names ->
  (forall file, In file names -> is_wav file = true ->
     is_Some (files w !! os_path_join (input_dir self) file)) ->
  exists audio_data, fst (load_all self w) = Ok audio_data.
Proof.
  intros Hdec Htrim Els Hdisk. rewrite load_all_unfold.
  rewrite (bind_ok _ _ w names w) by (by rewrite Els).
  clear Els. generalize (@nil (string * list sample)) as audio_data.
  induction names as [|file names IH]; intros audio_data; [by eexists|].
  simpl for_fold.
  assert (Hbody : exists acc, load_all_body self audio_data file w = (Ok acc, w)).
  { unfold load_all_body. fold (is_wav file).
    destruct (is_wav file) eqn:Ewav; [|by eexists]. cbv zeta.
    destruct (Hdisk file (or_introl eq_refl) Ewav) as [d Hd].
    destruct (Hdec d (sr self)) as [y0 Hy0]. destruct (Htrim y0) as [y Hy].
    unfold bind, librosa_load, lift, ret. rewrite Hd, Hy0, Hy. by eexists. }
  destruct Hbody as [acc Hbody]. rewrite (bind_ok _ _ _ _ _ Hbody).
  apply IH. intros f Hin. apply Hdisk. by right.
Qed.

End ManagerFacts.

(** ** The driver *)

Section DriverFacts.
Context `{RandomSource} `{Externals} `{!Trimmer}.
Implicit Types (w : World) (pool : list (list sample)).
Import Main.

Local Abbreviation am := (AudioManager.__init__ "input_audio" 22050).
Local Abbreviation composer := (StyleComposer.__init__ 22050).

Lemma phrase_len_main : phrase_len 2.0%float 22050 = Ok 44100.
Proof. vm_compute. reflexivity. Qed.

(** The segmentation [main] asks for never fails; its phrases have 44100
    samples, and there is one as soon as the waveform has that many. *)
Lemma segment_main (y : list sample) :
  exists phrases,
    StyleComposer.segment_and_score composer y 2.0%float = Ok phrases
    /\ Forall (fun phrase => py_len phrase = 44100) phrases
    /\ (44100 <= py_len y -> phrases <> [])
    /\ (py_len y < 44100 -> phrases = []).
Proof.
  rewrite (segment_and_score_windows composer 2.0%float 44100 phrase_len_main ltac:(lia) y).
  eexists. split; [reflexivity|].
  set (n := Z.to_nat 44100). assert (Hn : Z.of_nat n = 44100) by lia.
  pose proof (Nat.div_mod_eq (length y) n) as E.
  pose proof (Nat.mod_upper_bound (length y) n ltac:(lia)) as B.
  unfold py_len. split; [|split].
  - apply List.Forall_forall. intros phrase Hin.
    apply in_map_iff in Hin as (k & <- & Hk). apply in_seq in Hk.
    rewrite window_full; lia.
  - intros Hlong Hnil. apply (f_equal (@length _)) in Hnil.
    rewrite length_map, length_seq in Hnil. cbn [length] in Hnil. nia.
  - intros Hshort. rewrite Nat.div_small by lia. done.
Qed.

Lemma pool_of_cons (item : string * list sample) audio_data phrases :
  StyleComposer.segment_and_score composer item.2 2.0%float = Ok phrases ->
  pool_of (item :: audio_data) = phrases ++ pool_of audio_data.
Proof. intros Hseg. unfold pool_of. simpl. by rewrite Hseg. Qed.

Lemma pool_of_lengths (audio_data : list (string * list sample)) :
  Forall (fun phrase => py_len phrase = 44100) (pool_of audio_data).
Proof.
  induction audio_data as [|item audio_data IH]; [constructor|].
  destruct (segment_main item.2) as (phrases & Hseg & Hall & _).
  rewrite (pool_of_cons item audio_data phrases Hseg). by apply Forall_app.
Qed.

Lemma pool_of_short (audio_data : list (string * list sample)) :
  Forall (fun item => py_len item.2 < 44100) audio_data -> pool_of audio_data = [].
Proof.
  induction 1 as [|item audio_data Hshort _ IH]; [done|].
  destruct (segment_main item.2) as (phrases & Hseg & _ & _ & Hnil).
  rewrite (pool_of_cons item audio_data phrases Hseg), IH. by rewrite (Hnil Hshort).
Qed.

Lemma pool_of_long (audio_data : list (string * list sample)) item :
  In item audio_data -> 44100 <= py_len item.2 -> pool_of audio_data <> [].
Proof.
  induction audio_data as [|item0 audio_data IH]; intros Hin Hlong; [done|].
  destruct (segment_main item0.2) as (phrases & Hseg & _ & Hne & _).
  rewrite (pool_of_cons item0 audio_data phrases Hseg).
  destruct Hin as [->|Hin].
  - intros [Hnil _]%app_eq_nil. by apply Hne.
  - intros [_ Hnil]%app_eq_nil. by apply IH.
Qed.

(** X18. The pool of [main] is the phrases of the loaded waveforms, file
    after file; every phrase in it has exactly 44100 samples, two seconds
    at 22050 Hz, and it is empty exactly when every waveform is shorter
    than that. *)
Theorem pool_of_phrases (audio_data : list (string * list sample)) :
  Forall (fun phrase => py_len phrase = 44100) (pool_of audio_data)
  /\ (pool_of audio_data = [] <->
      Forall (fun item => py_len item.2 < 44100) audio_data).
Proof.
  split; [apply pool_of_lengths|]. split; [|apply pool_of_short].
  intros Hnil. apply List.Forall_forall. intros item Hin.
  destruct (Z.lt_ge_cases (py_len item.2) 44100) as [?|Hlong]; [done|].
  by destruct (pool_of_long audio_data item Hin Hlong).
Qed.

Lemma list_extend_run l phrases w acc :
  heap w !! l = Some acc ->
  list_extend l phrases w = (Ok tt, set_heap (<[l := acc ++ phrases]> (heap w)) w).
Proof. intros Hl. unfold list_extend, list_items, bind. by rewrite Hl. Qed.

(** The segmenting loop: the phrases of every loaded waveform, file after
    file, are appended to [all_segments]; nothing else changes. *)
Lemma segment_loop l audio_data :
  forall w acc,
    heap w !! l = Some acc ->
    for_each audio_data (segment_body composer l) w
    = (Ok tt, set_heap (<[l := acc ++ pool_of audio_data]> (heap w)) w).
Proof.
  induction audio_data as [|item audio_data IH]; intros w acc Hl.
  - simpl. unfold ret. f_equal. destruct w. unfold set_heap. simpl in *. f_equal.
    unfold pool_of. simpl. rewrite app_nil_r. by rewrite insert_id.
  - destruct (segment_main item.2) as (phrases & Hseg & _).
    rewrite (pool_of_cons item audio_data phrases Hseg).
    simpl for_each.
    assert (Hbody : segment_body composer l item w
                    = (Ok tt, set_heap (<[l := acc ++ phrases]> (heap w)) w)).
    { unfold segment_body. destruct item as [name y]. simpl in Hseg.
      rewrite (bind_ok _ _ w phrases w) by (unfold lift; by rewrite Hseg).
      by apply list_extend_run. }
    rewrite (bind_ok _ _ _ _ _ Hbody).
    rewrite (IH _ (acc ++ phrases)) by (simpl; apply lookup_insert_eq).
    f_equal. unfold set_heap. simpl. f_equal.
    rewrite insert_insert_eq. by rewrite <- app_assoc.
Qed.

Lemma random_choice_of_ok {A} (items : list A) w :
  RandomSourceLaws ->
  items <> [] ->
  exists x g, random_choice_of items w = (Ok x, set_rng g w) /\ In x items.
Proof.
  intros Hlaws Hne. unfold random_choice_of.
  assert (Hlen : 0 < py_len items).
  { unfold py_len. destruct items; [done|]. simpl. lia. }
  destruct (Z.eqb_spec (py_len items) 0) as [?|_]; [lia|].
  unfold bind, random_randbelow, lift.
  pose proof (randbelow_range (py_len items) (rng w) Hlen) as Hi.
  destruct (randbelow (py_len items) (rng w)) as [i g]. simpl in Hi.
  destruct (py_getitem_in_range items i Hi) as (x & Hnth & ->).
  exists x, g. split; [done|]. by eapply nth_error_In.
Qed.

Lemma random_randint_ok a b w :
  RandomSourceLaws ->
  a <= b ->
  exists v g, random_randint a b w = (Ok v, set_rng g w) /\ a <= v <= b.
Proof.
  intros Hlaws Hab. unfold random_randint. cbv zeta.
  destruct (Z.ltb_spec 0 (b + 1 - a)) as [Hw|?]; [|lia].
  unfold bind, random_randbelow, ret.
  pose proof (randbelow_range (b + 1 - a) (rng w) Hw) as Hi.
  destruct (randbelow (b + 1 - a) (rng w)) as [i g]. simpl in Hi.
  exists (a + i), g. split; [done|lia].
Qed.

(** One round of the composing loop: a track is composed from the pool
    and written at the round's path, or a transform or the writer fails
    and nothing is written; the pool and the directories are left as they
    are. *)
Lemma track_body_run l pool generated_pieces i w :
  RandomSourceLaws ->
  heap w !! l = Some pool ->
  pool <> [] ->
  let run := track_body am composer l generated_pieces i w in
  heap (snd run) !! l = Some pool
  /\ os (snd run) = os w
  /\ match fst run with
     | Ok _ =>
         exists out,
           Composed pool 22050 8 out
           /\ sf_log (snd run) = sf_log w ++ [(track_path i, out, 22050)]
           /\ files (snd run) = <[track_path i := wav_encode out 22050]> (files w)
     | Raise e =>
         (Transformed pool 22050 (Raise e) \/ Unwritten pool [i] (os w) e)
         /\ sf_log (snd run) = sf_log w
         /\ files (snd run) = files w
     end.
Proof.
  intros Hlaws Hpool Hne run. subst run.
  destruct (compose_outcome composer l 0.1%float 8 w pool Hlaws Hpool Hne ltac:(lia))
    as (g' & outcome & appended & Hits & Hrun & Hfresh).
  assert (Hdiff : fresh (dom (heap w)) <> l) by congruence.
  pose proof (Iterations_Transformed _ _ _ _ _ _ Hits) as Htr.
  set (w1 := set_heap (<[fresh (dom (heap w)) := appended]> (heap w)) (set_rng g' w)) in *.
  destruct outcome as [phrases|e]; simpl in Hrun.
  - pose proof (Iterations_length _ _ _ _ _ _ Hits) as Hlen.
    assert (Hcomposed : Composed pool 22050 8 (concat phrases)).
    { exists phrases. split; [done|]. split; [|done]. unfold py_len. rewrite Hlen. lia. }
    destruct (write_error (track_path i) (concat phrases) 22050 (files w) (os w))
      as [e|] eqn:Ewr.
    + assert (E : track_body am composer l generated_pieces i w = (Raise e, w1)).
      { unfold track_body. rewrite (bind_ok _ _ _ _ _ Hrun). cbv zeta.
        rewrite (bind_raise _ _ w1 e w1); [done|].
        unfold sf_write. fold (track_path i).
        change (files w1) with (files w). change (os w1) with (os w).
        change (AudioManager.sr am) with 22050. by rewrite Ewr. }
      rewrite E. simpl. split; [by rewrite lookup_insert_ne|]. split; [done|].
      split; [|done]. right. exists i, (concat phrases), (files w).
      split; [by left|]. done.
    + set (w2 := {| rng := rng w1; heap := heap w1;
                    files := <[track_path i := wav_encode (concat phrases) 22050]> (files w1);
                    sf_log := sf_log w1 ++ [(track_path i, concat phrases, 22050)];
                    os := os w1 |}).
      destruct (random_choice_of_ok ["6/8"; "4/4"; "7/8"]%string w2 Hlaws ltac:(done))
        as (m & g1 & Hm & _).
      destruct (random_randint_ok 80 120 (set_rng g1 w2) Hlaws ltac:(lia))
        as (t & g2 & Ht & _).
      assert (E : exists pieces,
                 track_body am composer l generated_pieces i w
                 = (Ok pieces, set_rng g2 (set_rng g1 w2))).
      { eexists. unfold track_body. rewrite (bind_ok _ _ _ _ _ Hrun). cbv zeta.
        rewrite (bind_ok _ _ w1 tt w2).
        - rewrite (bind_ok _ _ _ _ _ Hm), (bind_ok _ _ _ _ _ Ht). reflexivity.
        - unfold sf_write. fold (track_path i).
          change (files w1) with (files w). change (os w1) with (os w).
          change (AudioManager.sr am) with 22050. by rewrite Ewr. }
      destruct E as [pieces ->]. simpl.
      split; [by rewrite lookup_insert_ne|]. split; [done|].
      by exists (concat phrases).
  - assert (E : track_body am composer l generated_pieces i w = (Raise e, w1)).
    { unfold track_body. by rewrite (bind_raise _ _ _ _ _ Hrun). }
    rewrite E. simpl. split; [by rewrite lookup_insert_ne|]. split; [done|].
    split; [by left | done].
Qed.

Lemma Unwritten_incl pool indices indices' o e :
  (forall i, In i indices -> In i indices') ->
  Unwritten pool indices o e -> Unwritten pool indices' o e.
Proof. intros Hincl (i & out & fs & Hin & Hrest). exists i, out, fs. auto. Qed.

(** The composing loop: the tracks written are, one for one and in
    order, those of the rounds reached; all of them when the loop ends
    normally, and otherwise the loop ends with the error of a transform
    or of the writer. *)
Lemma tracks_loop l pool indices :
  RandomSourceLaws ->
  pool <> [] ->
  forall generated_pieces w,
    heap w !! l = Some pool ->
    let run := for_fold indices generated_pieces (track_body am composer l) w in
    exists reached rest outs,
      indices = reached ++ rest
      /\ sf_log (snd run) = sf_log w ++ outs
      /\ files (snd run) = replay outs (files w)
      /\ Forall2 (Track pool) reached outs
      /\ match fst run with
         | Ok _ => rest = []
         | Raise e => Transformed pool 22050 (Raise e) \/ Unwritten pool indices (os w) e
         end.
Proof.
  intros Hlaws Hne.
  induction indices as [|i indices IH]; intros generated_pieces w Hpool run; subst run.
  - exists [], [], []. simpl. rewrite app_nil_r. repeat split; constructor.
  - simpl for_fold.
    destruct (track_body_run l pool generated_pieces i w Hlaws Hpool Hne)
      as (Hpool' & Hos & Hres).
    destruct (track_body am composer l generated_pieces i w) as [[pieces|e] w1] eqn:Erun;
      simpl in Hpool', Hos, Hres.
    + destruct Hres as (out & Hout & Hlog & Hfiles).
      rewrite (bind_ok _ _ _ _ _ Erun).
      destruct (IH pieces w1 Hpool')
        as (reached & rest & outs & -> & Hlog' & Hfiles' & Hall & Hend).
      exists (i :: reached), rest, ((track_path i, out, 22050) :: outs).
      rewrite Hlog', Hfiles', Hlog, Hfiles. repeat split.
      * by rewrite <- app_assoc.
      * by constructor.
      * destruct (fst (for_fold (reached ++ rest) pieces (track_body am composer l) w1))
          as [?|e]; [done|].
        destruct Hend as [?|Hun]; [by left|right].
        rewrite Hos in Hun. eapply Unwritten_incl; [|exact Hun]. intros ? ?. by right.
    + destruct Hres as (Htr & Hlog & Hfiles).
      rewrite (bind_raise _ _ _ _ _ Erun). simpl.
      exists [], (i :: indices), []. rewrite Hlog, Hfiles, app_nil_r.
      repeat split; [constructor|].
      destruct Htr as [?|Hun]; [by left|right].
      eapply Unwritten_incl; [|exact Hun]. intros ? [<-|[]]. by left.
Qed.

(** The constructors of [main] make the directories [models] and
    [generated_music], in this order, and change nothing else. *)
Lemma components_run w :
  exists r o,
    components w = (r, set_os o w)
    /\ match r with
       | Ok _ =>
           exists o1, makedirs "models" (files w) (os w) = Ok o1
                      /\ makedirs "generated_music" (files w) o1 = Ok o
       | Raise e =>
           makedirs "models" (files w) (os w) = Raise e
           \/ exists o1, makedirs "models" (files w) (os w) = Ok o1
                         /\ makedirs "generated_music" (files w) o1 = Raise e
       end.
Proof.
  unfold components, AudioModelTrainer.__init__, AudioGenerator.__init__.
  cbv zeta. unfold bind, os_makedirs, ret.
  destruct (makedirs "models" (files w) (os w)) as [o1|e] eqn:E1.
  - simpl. destruct (makedirs "generated_music" (files w) o1) as [o2|e] eqn:E2.
    + eexists _, o2. split; [reflexivity|]. by exists o1.
    + eexists _, o1. split; [reflexivity|]. right. by exists o1.
  - eexists _, (os w). split; [by destruct w|]. by left.
Qed.

Lemma main_unfold w : main w = (_ <- components ;; session)%py w.
Proof.
  destruct (AudioModelTrainer.__init__ "models" w) as [[trainer|e] w1] eqn:Etrainer.
  - destruct (AudioGenerator.__init__ "input_audio" "generated_music" 22050 w1)
      as [[generator|e] w2] eqn:Egenerator.
    + assert (Hcs : components w = (Ok (trainer, generator), w2)).
      { unfold components.
        by rewrite (bind_ok _ _ _ _ _ Etrainer), (bind_ok _ _ _ _ _ Egenerator). }
      rewrite (bind_ok _ _ _ _ _ Hcs). unfold main. cbv zeta.
      by rewrite (bind_ok _ _ _ _ _ Etrainer), (bind_ok _ _ _ _ _ Egenerator).
    + assert (Hcs : components w = (Raise e, w2)).
      { unfold components.
        by rewrite (bind_ok _ _ _ _ _ Etrainer), (bind_raise _ _ _ _ _ Egenerator). }
      rewrite (bind_raise _ _ _ _ _ Hcs). unfold main. cbv zeta.
      by rewrite (bind_ok _ _ _ _ _ Etrainer), (bind_raise _ _ _ _ _ Egenerator).
  - assert (Hcs : components w = (Raise e, w1)).
    { unfold components. by rewrite (bind_raise _ _ _ _ _ Etrainer). }
    rewrite (bind_raise _ _ _ _ _ Hcs). unfold main. cbv zeta.
    by rewrite (bind_raise _ _ _ _ _ Etrainer).
Qed.

Lemma main_session w cs w0 :
  components w = (Ok cs, w0) -> main w = session w0.
Proof. intros Hcs. by rewrite main_unfold, (bind_ok _ _ _ _ _ Hcs). Qed.

(** [main] up to the pool: the loaded waveforms are segmented into a new
    list object, and nothing else has changed. *)
Lemma session_collect w audio_data :
  AudioManager.load_all am w = (Ok audio_data, w) ->
  audio_data <> [] ->
  let w1 := set_heap (<[fresh (dom (heap w)) := pool_of audio_data]> (heap w)) w in
  session w =
  match pool_of audio_data with
  | [] => (Ok tt, w1)
  | _ =>
      (os_makedirs "generated_music" ;;
       indices <- lift (py_range 0 6 1) ;;
       generated_pieces <-
         for_fold indices [] (track_body am composer (fresh (dom (heap w)))) ;;
       ret tt)%py w1
  end.
Proof.
  intros Hload Hne w1. unfold session. cbv zeta.
  rewrite (bind_ok _ _ _ _ _ Hload).
  destruct audio_data as [|item audio_data]; [done|].
  set (data := item :: audio_data) in *.
  set (l := fresh (dom (heap w))) in *.
  set (w0 := set_heap (<[l := []]> (heap w)) w).
  rewrite (bind_ok _ _ w l w0) by done.
  assert (Hseg : for_each data (segment_body composer l) w0 = (Ok tt, w1)).
  { rewrite (segment_loop l data w0 []) by (simpl; apply lookup_insert_eq).
    f_equal. subst w1 w0. unfold set_heap. simpl. f_equal. apply insert_insert_eq. }
  rewrite (bind_ok _ _ _ _ _ Hseg).
  assert (Hitems : list_items l w1 = (Ok (pool_of data), w1)).
  { unfold list_items. subst w1. simpl. by rewrite lookup_insert_eq. }
  rewrite (bind_ok _ _ _ _ _ Hitems).
  by destruct (pool_of data).
Qed.

Lemma main_loaded w audio_data :
  fst (AudioManager.load_all am w) = Ok audio_data ->
  AudioManager.load_all am w = (Ok audio_data, w).
Proof. destruct (load_all_run am w) as [r ->]. by intros [= ->]. Qed.

Lemma session_idle w audio_data :
  AudioManager.load_all am w = (Ok audio_data, w) ->
  pool_of audio_data = [] ->
  exists w', session w = (Ok tt, w')
    /\ rng w' = rng w /\ files w' = files w /\ sf_log w' = sf_log w
    /\ os w' = os w /\ heap w ⊆ heap w'.
Proof.
  intros Hload Hpool.
  destruct audio_data as [|item audio_data].
  - exists w. unfold session. cbv zeta. by rewrite (bind_ok _ _ _ _ _ Hload).
  - rewrite (session_collect w _ Hload ltac:(done)), Hpool.
    eexists. split; [reflexivity|]. simpl. repeat split.
    apply insert_subseteq, not_elem_of_dom, is_fresh.
Qed.

(** [main] from the pool on: the directory of the tracks is made, then
    the tracks are composed and written. *)
Lemma session_run w audio_data :
  RandomSourceLaws ->
  AudioManager.load_all am w = (Ok audio_data, w) ->
  pool_of audio_data <> [] ->
  exists reached rest outs,
    [0; 1; 2; 3; 4; 5] = reached ++ rest
    /\ sf_log (snd (session w)) = sf_log w ++ outs
    /\ files (snd (session w)) = replay outs (files w)
    /\ Forall2 (Track (pool_of audio_data)) reached outs
    /\ match fst (session w) with
       | Ok _ => rest = []
       | Raise e =>
           makedirs "generated_music" (files w) (os w) = Raise e
           \/ exists o, makedirs "generated_music" (files w) (os w) = Ok o
                /\ (Transformed (pool_of audio_data) 22050 (Raise e)
                    \/ Unwritten (pool_of audio_data) [0; 1; 2; 3; 4; 5] o e)
       end.
Proof.
  intros Hlaws Hload Hpool.
  assert (Hne : audio_data <> []) by (by intros ->).
  rewrite (session_collect w _ Hload Hne).
  destruct (pool_of audio_data) as [|phrase pool] eqn:Epool; [done|].
  set (l := fresh (dom (heap w))).
  set (w1 := set_heap (<[l := phrase :: pool]> (heap w)) w).
  destruct (makedirs "generated_music" (files w) (os w)) as [o|e] eqn:Emk.
  - rewrite (bind_ok _ _ w1 tt (set_os o w1))
      by (unfold os_makedirs; change (files w1) with (files w);
          change (os w1) with (os w); by rewrite Emk).
    rewrite (bind_ok _ _ (set_os o w1) [0; 1; 2; 3; 4; 5] (set_os o w1)) by done.
    destruct (tracks_loop l (phrase :: pool) [0; 1; 2; 3; 4; 5] Hlaws Hpool [] (set_os o w1))
      as (reached & rest & outs & Hsplit & Hlog & Hfiles & Hall & Hend).
    { simpl. apply lookup_insert_eq. }
    exists reached, rest, outs.
    destruct (for_fold [0; 1; 2; 3; 4; 5] [] (track_body am composer l) (set_os o w1))
      as [[pieces|e] w2] eqn:Erun; simpl in Hlog, Hfiles, Hend.
    + by rewrite (bind_ok _ _ _ _ _ Erun).
    + rewrite (bind_raise _ _ _ _ _ Erun). simpl. repeat split; [done..|].
      right. by exists o.
  - rewrite (bind_raise _ _ w1 e w1)
      by (unfold os_makedirs; change (files w1) with (files w);
          change (os w1) with (os w); by rewrite Emk).
    exists [], [0; 1; 2; 3; 4; 5], []. simpl. rewrite app_nil_r.
    repeat split; [constructor|]. by left.
Qed.

Lemma track_paths pool reached outs :
  Forall2 (Track pool) reached outs ->
  map (fun o => o.1.1) outs = map track_path reached.
Proof.
  induction 1 as [|i o reached outs (Hpath & _) _ IH]; [done|].
  simpl. by rewrite Hpath, IH.
Qed.

Lemma replay_lookup_other outs (fs : gmap string filedata) path :
  ~ In path (map (fun o => o.1.1) outs) -> replay outs fs !! path = fs !! path.
Proof.
  revert fs. induction outs as [|o outs IH]; intros fs Hnotin; [done|].
  unfold replay. simpl. fold (replay outs (<[o.1.1 := wav_encode o.1.2 o.2]> fs)).
  rewrite IH by (intros Hin; apply Hnotin; by right).
  apply lookup_insert_ne. intros E. apply Hnotin. by left.
Qed.


(** X20. When [main] returns normally and the pool is not empty, it has
    called the writer exactly six times, for
    [generated_music/style_composed_1.wav] to [..._6.wav] in this order,
    each time at 22050 Hz with eight transformed phrases of the pool laid
    end to end; the files are the old files with these calls replayed. *)
Theorem main_tracks w audio_data :
  RandomSourceLaws ->
  fst (AudioManager.load_all am w) = Ok audio_data ->
  pool_of audio_data <> [] ->
  fst (main w) = Ok tt ->
  exists outs,
    sf_log (snd (main w)) = sf_log w ++ outs
    /\ files (snd (main w)) = replay outs (files w)
    /\ Forall2 (Track (pool_of audio_data)) [0; 1; 2; 3; 4; 5] outs
    /\ map (fun o => o.1.1) outs
       = [ "generated_music/style_composed_1.wav"; "generated_music/style_composed_2.wav";
           "generated_music/style_composed_3.wav"; "generated_music/style_composed_4.wav";
           "generated_music/style_composed_5.wav"; "generated_music/style_composed_6.wav"
         ]%string.
Proof.
  intros Hlaws Hload Hpool.
  destruct (components_run w) as ([cs|e] & o & Hcs & _).
  - rewrite (main_session w cs _ Hcs). intros Hok.
    apply (load_all_same_files am w (set_os o w) audio_data eq_refl) in Hload.
    apply main_loaded in Hload.
    destruct (session_run _ audio_data Hlaws Hload Hpool)
      as (reached & rest & outs & Hsplit & Hlog & Hfiles & Hall & Hend).
    rewrite Hok in Hend. subst rest. rewrite app_nil_r in Hsplit. subst reached.
    exists outs. repeat split; try done.
    by rewrite (track_paths _ _ _ Hall).
  - by rewrite main_unfold, (bind_raise _ _ _ _ _ Hcs).
Qed.


(** X22. [main] changes no file but its six tracks: every other path, the
    input files among them, holds after the run what it held before,
    whether the run returns or raises. *)
Theorem main_keeps_other_files w path :
  RandomSourceLaws ->
  ~ In path [ "generated_music/style_composed_1.wav"; "generated_music/style_composed_2.wav";
              "generated_music/style_composed_3.wav"; "generated_music/style_composed_4.wav";
              "generated_music/style_composed_5.wav"; "generated_music/style_composed_6.wav"
            ]%string ->
  files (snd (main w)) !! path = files w !! path.
Proof.
  intros Hlaws Hpath.
  destruct (components_run w) as ([cs|e0] & o & Hcs & _).
  - rewrite (main_session w cs _ Hcs).
    change (files w) with (files (set_os o w)).
    destruct (load_all_run am (set_os o w)) as [[audio_data|e1] Hload].
    + destruct (pool_of audio_data) as [|phrase pool] eqn:Epool.
      * destruct (session_idle _ audio_data Hload Epool) as (w' & -> & _ & Hfiles & _).
        simpl. by rewrite Hfiles.
      * destruct (session_run _ audio_data Hlaws Hload ltac:(by rewrite Epool))
          as (reached & rest & outs & Hsplit & _ & -> & Hall & _).
        apply replay_lookup_other. rewrite (track_paths _ _ _ Hall).
        intros Hin. apply Hpath.
        change (In path (map track_path [0; 1; 2; 3; 4; 5])).
        rewrite Hsplit, map_app. apply in_or_app. by left.
    + unfold session. cbv zeta. by rewrite (bind_raise _ _ _ _ _ Hload).
  - by rewrite main_unfold, (bind_raise _ _ _ _ _ Hcs).
Qed.

Lemma main_returns w o1 o2 o3 audio_data :
  RandomSourceLaws ->
  makedirs "models" (files w) (os w) = Ok o1 ->
  makedirs "generated_music" (files w) o1 = Ok o2 ->
  fst (AudioManager.load_all am w) = Ok audio_data ->
  makedirs "generated_music" (files w) o2 = Ok o3 ->
  (forall i out fs, In i [0; 1; 2; 3; 4; 5] ->
     write_error (track_path i) out 22050 fs o3 = None) ->
  (forall e, ~ Transformed (pool_of audio_data) 22050 (Raise e)) ->
  fst (main w) = Ok tt.
Proof.
  intros Hlaws Hmk1 Hmk2 Hload Hmk3 Hwr Hok.
  destruct (components_run w) as ([cs|e] & o & Hcs & Hmk).
  - destruct Hmk as (o1' & Hmk1' & Hmk2').
    assert (o = o2) as -> by congruence.
    rewrite (main_session w cs _ Hcs).
    apply (load_all_same_files am w (set_os o2 w) audio_data eq_refl) in Hload.
    apply main_loaded in Hload.
    destruct (pool_of audio_data) as [|phrase pool] eqn:Epool.
    + by destruct (session_idle _ audio_data Hload Epool) as (w' & -> & _).
    + destruct (session_run _ audio_data Hlaws Hload ltac:(by rewrite Epool))
        as (reached & rest & outs & _ & _ & _ & _ & Hend).
      rewrite Epool in Hend.
      destruct (fst (session (set_os o2 w))) as [[]|e]; [done|].
      simpl in Hend.
      destruct Hend as [Hend | (o' & Hmk' & [Htr | (i & out & fs & Hin & _ & Hun)])].
      * congruence.
      * by destruct (Hok e).
      * assert (o' = o3) as -> by congruence. rewrite Hwr in Hun; done.
  - destruct Hmk as [Hmk | (o1' & Hmk1' & Hmk2')]; congruence.
Qed.


End DriverFacts.



(** ** The development at a concrete run-time *)

Lemma float_leb_refl (a b : float) :
  (a <=? b)%float = true -> (a <=? a)%float = true /\ (b <=? b)%float = true.
Proof.
  rewrite 3!FloatAxioms.leb_spec. unfold SFleb, SFcompare.
  destruct (Prim2SF a) as [s|s| |s m e], (Prim2SF b) as [s'|s'| |s' m' e'];
    try destruct s; try destruct s'; try done;
    rewrite ?Z.compare_refl, ?Pos.compare_cont_refl; done.
Qed.

Lemma counter_laws : @RandomSourceLaws Demo.counter.
Proof.
  split.
  - intros n g Hn. simpl. apply Z.mod_pos_bound. lia.
  - intros a b g Hab. simpl. destruct (float_leb_refl a b Hab) as [Ha Hb].
    by destruct (Nat.even g).
Qed.

Import Demo.

(** C2 at a pool of two phrases, three phrases asked for. *)
Lemma compose_iterations_witness :
  RandomSourceLaws /\
  heap (world [[1; 2]; [3; 4]] 0) !! pool_at = Some [[1; 2]; [3; 4]] /\
  [[1; 2]; [3; 4]] <> [] /\
  1 <= 3 /\
  exists outcome,
    Iterations [[1; 2]; [3; 4]] (StyleComposer.sr composer) (Z.to_nat 3)
      (rng (world [[1; 2]; [3; 4]] 0))
      (rng (snd (StyleComposer.compose composer pool_at 0.1%float 3 (world [[1; 2]; [3; 4]] 0))))
      outcome
    /\ fst (StyleComposer.compose composer pool_at 0.1%float 3 (world [[1; 2]; [3; 4]] 0))
       = (phrases <- outcome ;; Ok (concat phrases))%result
    /\ (forall phrases, outcome = Ok phrases -> length phrases = Z.to_nat 3).
Proof.
  split; [exact counter_laws|].
  split; [reflexivity|].
  split; [discriminate|].
  split; [lia|].
  apply (compose_iterations composer pool_at 0.1%float 3 (world [[1; 2]; [3; 4]] 0) [[1; 2]; [3; 4]]).
  - exact counter_laws.
  - reflexivity.
  - discriminate.
  - lia.
Defined.

(** What that call returns: stretch, shift, stretch. *)
Example compose_three_phrases :
  fst (StyleComposer.compose composer pool_at 0.1%float 3 (world [[1; 2]; [3; 4]] 0))
  = Ok [1; 1; 2; 103; 104; 1; 1; 2].
Proof. vm_compute. reflexivity. Qed.

(** C3 refuted as stated: on an empty pool and with [num_phrases = 0] the
    pool is never consulted, and the error is that of an empty
    concatenation, not [EmptyPoolError]. *)
Lemma compose_empty_pool_zero_phrases :
  ~ (forall k : Z,
       fst (StyleComposer.compose composer pool_at 0.1%float k (world [] 0))
       = Raise EmptyPoolError).
Proof.
  intros Hclaim. specialize (Hclaim 0). vm_compute in Hclaim. discriminate Hclaim.
Qed.

Lemma compose_empty_pool_raises_witness :
  heap (world [] 0) !! pool_at = Some [] /\
  1 <= 2 /\
  fst (StyleComposer.compose composer pool_at 0.1%float 2 (world [] 0)) = Raise EmptyPoolError
  /\ rng (snd (StyleComposer.compose composer pool_at 0.1%float 2 (world [] 0))) = rng (world [] 0).
Proof.
  split; [reflexivity|]. split; [lia|].
  apply (compose_empty_pool_raises composer pool_at 0.1%float 2 (world [] 0)).
  - reflexivity.
  - lia.
Defined.

Lemma compose_preserves_pool_witness :
  heap (world [[1; 2]; [3; 4]] 0) !! pool_at = Some [[1; 2]; [3; 4]] /\
  let w' := snd (StyleComposer.compose composer pool_at 0.1%float 3 (world [[1; 2]; [3; 4]] 0)) in
  heap w' !! pool_at = Some [[1; 2]; [3; 4]]
  /\ heap (world [[1; 2]; [3; 4]] 0) ⊆ heap w'
  /\ files w' = files (world [[1; 2]; [3; 4]] 0)
  /\ sf_log w' = sf_log (world [[1; 2]; [3; 4]] 0)
  /\ (forall variation_strength' k',
        heap (snd (StyleComposer.compose composer pool_at variation_strength' k' w')) !! pool_at
        = Some [[1; 2]; [3; 4]]).
Proof.
  split; [reflexivity|].
  apply (compose_preserves_pool composer pool_at 0.1%float 3 (world [[1; 2]; [3; 4]] 0) [[1; 2]; [3; 4]]).
  reflexivity.
Defined.

(** C10 on a pool that is not empty. *)
Example compose_zero_phrases_nonempty_pool :
  fst (StyleComposer.compose composer pool_at 0.1%float 0 (world [[1; 2]; [3; 4]] 0))
  = Raise (ValueError "need at least one array to concatenate").
Proof. vm_compute. reflexivity. Qed.

Lemma transform_audio_pitch_then_stretch_witness :
  RandomSourceLaws /\
  exists i g1 n_steps rate g2,
    randbelow 4 (rng disk) = (i, g1)
    /\ nth_error [-2; -1; 1; 2] (Z.to_nat i) = Some n_steps
    /\ In n_steps [-2; -1; 1; 2]
    /\ uniform 0.9%float 1.1%float g1 = (rate, g2)
    /\ (0.9 <=? rate)%float = true
    /\ (rate <=? 1.1)%float = true
    /\ AudioGenerator._transform_audio generator a_wav disk =
         ((y_shifted <- pitch_shift a_wav (AudioGenerator.sr generator) (Z2F n_steps) ;;
           time_stretch y_shifted rate)%result,
          set_rng g2 disk).
Proof.
  split; [exact counter_laws|].
  apply (transform_audio_pitch_then_stretch generator a_wav disk).
  exact counter_laws.
Defined.

(** The scenario of C6: a directory with [a.wav], [notes.txt] and [b.wav]
    gives exactly the two outputs [generated_a.wav] and [generated_b.wav],
    each the shifted and then stretched whole file. *)
Example generate_two_files :
  fst (AudioGenerator.generate generator disk) = Ok tt
  /\ sf_log (snd (AudioGenerator.generate generator disk))
     = [ ("generated_music/generated_a.wav"%string, [101; 101; 102; 103], 22050);
         ("generated_music/generated_b.wav"%string, [107; 107; 108], 22050) ].
Proof. vm_compute. split; reflexivity. Qed.

(** The end-to-end scenarios of the Segmenter: ten seconds at 22050 Hz in
    two-second phrases are exactly five phrases of 44100 samples; three
    seconds are exactly one. *)
Example segment_ten_seconds (y : list Z) :
  py_len y = 220500 ->
  exists phrases,
    StyleComposer.segment_and_score (StyleComposer.__init__ 22050) y 2.0%float = Ok phrases
    /\ py_len phrases = 5
    /\ Forall (fun phrase => py_len phrase = 44100) phrases.
Proof.
  intros Hlen.
  destruct (segment_and_score_count (StyleComposer.__init__ 22050) y 2.0%float 44100)
    as (phrases & Hrun & Hcount & Hall); [vm_compute; reflexivity | lia |].
  exists phrases. rewrite Hlen in Hcount. repeat split; done.
Qed.

Example segment_three_seconds (y : list Z) :
  py_len y = 66150 ->
  exists phrases,
    StyleComposer.segment_and_score (StyleComposer.__init__ 22050) y 2.0%float = Ok phrases
    /\ py_len phrases = 1.
Proof.
  intros Hlen.
  destruct (segment_and_score_count (StyleComposer.__init__ 22050) y 2.0%float 44100)
    as (phrases & Hrun & Hcount & _); [vm_compute; reflexivity | lia |].
  exists phrases. rewrite Hlen in Hcount. split; done.
Qed.


(** The run stops at the first file that cannot be handled: without
    [b.wav] on disk, the output of [a.wav] is written and the loader's
    error ends the call; without the output directory, the writer's error
    ends it and nothing is written. *)
Example generate_stops_at_missing_file :
  fst (AudioGenerator.generate generator half_disk)
    = Raise (ExternalError "FileNotFoundError")
  /\ sf_log (snd (AudioGenerator.generate generator half_disk))
     = [ ("generated_music/generated_a.wav"%string, [101; 101; 102; 103], 22050) ].
Proof. vm_compute. split; reflexivity. Qed.

Example generate_without_directory :
  fst (AudioGenerator.generate generator bare_disk)
    = Raise (ExternalError "LibsndfileError")
  /\ sf_log (snd (AudioGenerator.generate generator bare_disk)) = []
  /\ files (snd (AudioGenerator.generate generator bare_disk))
       !! "generated_music/generated_a.wav"%string = None.
Proof. vm_compute. split; [reflexivity|]. split; reflexivity. Qed.

(** The constructor makes the output directory, and [generate] then
    writes into it. *)
Example generate_after_init :
  fst ((self <- AudioGenerator.__init__ "input_audio" "generated_music" 22050 ;;
        AudioGenerator.generate self)%py bare_disk) = Ok tt.
Proof. vm_compute. reflexivity. Qed.

(** The numbers of Python on a few inputs. *)
Example py_int_truncates :
  py_int (-1.5)%float = Ok (-1) /\ py_floor (-1.5)%float = Ok (-2)
  /\ py_int (-0.25)%float = Ok 0 /\ py_floor (-0.25)%float = Ok (-1).
Proof. vm_compute. repeat split. Qed.

Example py_float_of_int_rounds :
  py_float_of_int 22050 = Ok 22050%float
  /\ py_float_of_int (2 ^ 53 + 1) = Ok 9007199254740992%float
  /\ py_float_of_int (2 ^ 1024) = Raise (OverflowError "int too large to convert to float").
Proof. vm_compute. repeat split. Qed.

(** A length that truncates to [0] although its floor is [-1]. *)
Example segment_tiny_negative_length :
  phrase_len (-0.25)%float 2 = Ok (-1)
  /\ StyleComposer.segment_and_score (StyleComposer.__init__ 2) [1; 2; 3] (-0.25)%float
     = Raise InvalidConfiguration.
Proof. vm_compute. split; reflexivity. Qed.

Example is_wav_examples :
  is_wav "a.wav" = true /\ is_wav "B.WAV" = true
  /\ is_wav "notes.txt" = false /\ is_wav "wav" = false.
Proof. vm_compute. repeat split. Qed.

(** ** The further properties at concrete inputs *)

Import Studio.

Lemma segment_and_score_remainder_witness :
  phrase_len 2.0%float 2 = Ok 4 /\ 0 < 4 /\
  exists phrases,
    StyleComposer.segment_and_score (StyleComposer.__init__ 2) [1; 2; 3; 4; 5; 6; 7; 8; 9] 2.0%float
      = Ok phrases
    /\ [1; 2; 3; 4; 5; 6; 7; 8; 9]
       = concat phrases ++ drop (length (concat phrases)) [1; 2; 3; 4; 5; 6; 7; 8; 9]
    /\ py_len (concat phrases) = py_len [1; 2; 3; 4; 5; 6; 7; 8; 9] / 4 * 4
    /\ 0 <= py_len [1; 2; 3; 4; 5; 6; 7; 8; 9] - py_len (concat phrases) < 4.
Proof.
  split; [vm_compute; reflexivity|]. split; [lia|].
  apply (segment_and_score_remainder (StyleComposer.__init__ 2) [1; 2; 3; 4; 5; 6; 7; 8; 9] 2.0%float 4).
  - vm_compute; reflexivity.
  - lia.
Defined.

Lemma segment_and_score_concat_witness :
  phrase_len 2.0%float 2 = Ok 4 /\ 0 < 4 /\
  StyleComposer.segment_and_score (StyleComposer.__init__ 2) [1; 2; 3; 4; 5; 6; 7; 8; 9] 2.0%float
    = Ok [[1; 2; 3; 4]; [5; 6; 7; 8]] /\
  StyleComposer.segment_and_score (StyleComposer.__init__ 2)
    (concat [[1; 2; 3; 4]; [5; 6; 7; 8]]) 2.0%float
    = Ok [[1; 2; 3; 4]; [5; 6; 7; 8]].
Proof.
  split; [vm_compute; reflexivity|]. split; [lia|]. split; [vm_compute; reflexivity|].
  apply (segment_and_score_concat (StyleComposer.__init__ 2) [1; 2; 3; 4; 5; 6; 7; 8; 9] 2.0%float 4).
  - vm_compute; reflexivity.
  - lia.
  - vm_compute; reflexivity.
Defined.

Lemma segment_and_score_app_witness :
  phrase_len 2.0%float 2 = Ok 4 /\ 0 < 4 /\ py_len [1; 2; 3; 4] = 1 * 4 /\
  exists phrases1 phrases2,
    StyleComposer.segment_and_score (StyleComposer.__init__ 2) [1; 2; 3; 4] 2.0%float = Ok phrases1
    /\ StyleComposer.segment_and_score (StyleComposer.__init__ 2) [5; 6; 7; 8; 9] 2.0%float = Ok phrases2
    /\ StyleComposer.segment_and_score (StyleComposer.__init__ 2) ([1; 2; 3; 4] ++ [5; 6; 7; 8; 9]) 2.0%float
       = Ok (phrases1 ++ phrases2).
Proof.
  split; [vm_compute; reflexivity|]. split; [lia|]. split; [reflexivity|].
  apply (segment_and_score_app (StyleComposer.__init__ 2) [1; 2; 3; 4] [5; 6; 7; 8; 9] 2.0%float 4 1).
  - vm_compute; reflexivity.
  - lia.
  - reflexivity.
Defined.

Lemma segment_and_score_nan_witness :
  (exists f, py_float_of_int (StyleComposer.sr (StyleComposer.__init__ 22050)) = Ok f) /\
  StyleComposer.segment_and_score (StyleComposer.__init__ 22050) [1; 2; 3] nan
  = Raise (ValueError "cannot convert float NaN to integer").
Proof.
  split; [eexists; vm_compute; reflexivity|].
  apply (segment_and_score_nan (StyleComposer.__init__ 22050) [1; 2; 3]).
  eexists; vm_compute; reflexivity.
Defined.

Lemma generated_name_is_wav_witness :
  is_wav "a.WAV" = true /\ is_wav ("generated_" ++ "a.WAV") = true.
Proof.
  split; [reflexivity|]. apply (generated_name_is_wav "a.WAV"). reflexivity.
Defined.

(** A pool whose one phrase is empty: the toy transforms reject it. *)
Lemma compose_error_is_transform_error_witness :
  RandomSourceLaws /\
  heap (world [[]] 0) !! pool_at = Some [[]] /\
  [[] : list Z] <> [] /\
  1 <= 1 /\
  fst (StyleComposer.compose composer pool_at 0.1%float 1 (world [[]] 0))
    = Raise (ExternalError "ParameterError") /\
  Transformed [[]] (StyleComposer.sr composer) (Raise (ExternalError "ParameterError")).
Proof.
  split; [exact counter_laws|]. split; [reflexivity|]. split; [discriminate|].
  split; [lia|]. split; [vm_compute; reflexivity|].
  apply (compose_error_is_transform_error composer pool_at 0.1%float 1 (world [[]] 0) [[]]).
  - exact counter_laws.
  - reflexivity.
  - discriminate.
  - lia.
  - vm_compute; reflexivity.
Defined.

Lemma compose_output_pieces_witness :
  RandomSourceLaws /\
  heap (world [[1; 2]; [3; 4]] 0) !! pool_at = Some [[1; 2]; [3; 4]] /\
  [[1; 2]; [3; 4]] <> [] /\
  1 <= 3 /\
  fst (StyleComposer.compose composer pool_at 0.1%float 3 (world [[1; 2]; [3; 4]] 0))
    = Ok [1; 1; 2; 103; 104; 1; 1; 2] /\
  exists pieces,
    [1; 1; 2; 103; 104; 1; 1; 2] = concat pieces
    /\ py_len pieces = 3
    /\ Forall (fun piece => Transformed [[1; 2]; [3; 4]] (StyleComposer.sr composer) (Ok piece)) pieces.
Proof.
  split; [exact counter_laws|]. split; [reflexivity|]. split; [discriminate|].
  split; [lia|]. split; [vm_compute; reflexivity|].
  apply (compose_output_pieces composer pool_at 0.1%float 3 (world [[1; 2]; [3; 4]] 0) [[1; 2]; [3; 4]]).
  - exact counter_laws.
  - reflexivity.
  - discriminate.
  - lia.
  - vm_compute; reflexivity.
Defined.

(** The toy transforms fail on the empty signal only. *)
Lemma toy_transforms_ok (pool : list (list Z)) (rate : Z) :
  Forall (fun phrase => phrase <> []) pool ->
  forall e, ~ Transformed pool rate (Raise e).
Proof.
  intros Hpool e (seg & Hin & Hcase).
  rewrite List.Forall_forall in Hpool. specialize (Hpool seg Hin).
  destruct seg as [|x seg]; [done|].
  destruct Hcase as [(n & _ & _ & Hr) | (r & _ & _ & Hr)]; discriminate Hr.
Qed.

Lemma compose_succeeds_witness :
  RandomSourceLaws /\
  heap (world [[1; 2]; [3; 4]] 0) !! pool_at = Some [[1; 2]; [3; 4]] /\
  [[1; 2]; [3; 4]] <> [] /\
  1 <= 3 /\
  (forall e, ~ Transformed [[1; 2]; [3; 4]] (StyleComposer.sr composer) (Raise e)) /\
  exists out,
    fst (StyleComposer.compose composer pool_at 0.1%float 3 (world [[1; 2]; [3; 4]] 0)) = Ok out.
Proof.
  assert (Hok : forall e, ~ Transformed [[1; 2]; [3; 4]] (StyleComposer.sr composer) (Raise e)).
  { apply toy_transforms_ok. repeat constructor; discriminate. }
  split; [exact counter_laws|]. split; [reflexivity|]. split; [discriminate|].
  split; [lia|]. split; [exact Hok|].
  apply (compose_succeeds composer pool_at 0.1%float 3 (world [[1; 2]; [3; 4]] 0) [[1; 2]; [3; 4]]).
  - exact counter_laws.
  - reflexivity.
  - discriminate.
  - lia.
  - exact Hok.
Defined.

Lemma compose_negative_phrases_raises_witness :
  -3 < 0 /\
  fst (StyleComposer.compose composer pool_at 0.1%float (-3) (world [[1; 2]; [3; 4]] 0))
    = Raise NothingToConcatenate
  /\ rng (snd (StyleComposer.compose composer pool_at 0.1%float (-3) (world [[1; 2]; [3; 4]] 0)))
     = rng (world [[1; 2]; [3; 4]] 0).
Proof.
  split; [lia|].
  apply (compose_negative_phrases_raises composer pool_at 0.1%float (-3) (world [[1; 2]; [3; 4]] 0)).
  lia.
Defined.



(** [save_audio] makes the directory and writes; where a file is in the
    way of the directory, or the directory has no name, it raises and
    writes nothing. *)
Example save_audio_examples :
  fst (AudioManager.save_audio manager [4; 5] "c.wav" "saved" short_disk)
    = Ok "saved/c.wav"%string
  /\ files (snd (AudioManager.save_audio manager [4; 5] "c.wav" "saved" short_disk))
       !! "saved/c.wav"%string = Some ([4; 5], 22050)
  /\ fst (AudioManager.save_audio manager [4; 5] "c.wav" "generated_music" blocked_disk)
     = Raise (ExternalError "FileExistsError")
  /\ fst (AudioManager.save_audio manager [4; 5] "c.wav" "" short_disk)
     = Raise (ExternalError "FileNotFoundError").
Proof. vm_compute. split; [reflexivity|]. split; [reflexivity|]. split; reflexivity. Qed.

(** [load_file] refuses a name that is not there; the empty name is the
    directory itself, which the guard lets through to the loader. *)
Example load_file_examples :
  fst (AudioManager.load_file manager "zz.wav" short_disk)
    = Raise (FileNotFoundError "File zz.wav not found in input_audio")
  /\ fst (AudioManager.load_file manager "" short_disk)
     = Raise (ExternalError "IsADirectoryError").
Proof. vm_compute. split; reflexivity. Qed.

Lemma load_file_of_load_all_witness :
  fst (AudioManager.load_all manager short_disk)
    = Ok [("a.wav"%string, [1; 2; 3]); ("b.wav"%string, [7; 8])] /\
  In ("a.wav"%string, [1; 2; 3]) [("a.wav"%string, [1; 2; 3]); ("b.wav"%string, [7; 8])] /\
  AudioManager.load_file manager "a.wav" short_disk = (Ok [1; 2; 3], short_disk).
Proof.
  split; [vm_compute; reflexivity|]. split; [by left|].
  apply (load_file_of_load_all manager short_disk
           [("a.wav"%string, [1; 2; 3]); ("b.wav"%string, [7; 8])] "a.wav" [1; 2; 3]).
  - vm_compute; reflexivity.
  - by left.
Defined.

Lemma load_all_succeeds_witness :
  (forall (d : @filedata toy_audio) rate, exists y, wav_decode d rate = Ok y) /\
  (forall y : list (@sample toy_audio), exists y', trim y = Ok y') /\
  os_listdir (AudioManager.input_dir manager) (files short_disk)
    = Ok ["a.wav"; "notes.txt"; "b.wav"]%string /\
  (forall file, In file ["a.wav"; "notes.txt"; "b.wav"]%string -> is_wav file = true ->
     is_Some (files short_disk !! os_path_join (AudioManager.input_dir manager) file)) /\
  exists audio_data, fst (AudioManager.load_all manager short_disk) = Ok audio_data.
Proof.
  assert (Hdec : forall (d : @filedata toy_audio) rate, exists y, wav_decode d rate = Ok y)
    by (intros d rate; by eexists).
  assert (Htrim : forall y : list (@sample toy_audio), exists y', trim y = Ok y')
    by (intros y; by eexists).
  assert (Hdisk : forall file, In file ["a.wav"; "notes.txt"; "b.wav"]%string ->
            is_wav file = true ->
            is_Some (files short_disk !! os_path_join (AudioManager.input_dir manager) file)).
  { intros file [<-|[<-|[<-|[]]]] _; vm_compute; by eexists. }
  split; [exact Hdec|]. split; [exact Htrim|]. split; [reflexivity|]. split; [exact Hdisk|].
  apply (load_all_succeeds manager short_disk ["a.wav"; "notes.txt"; "b.wav"]%string).
  - exact Hdec.
  - exact Htrim.
  - reflexivity.
  - exact Hdisk.
Defined.



(** A run without files on disk: the loader fails on the first WAV name. *)
Example main_without_files :
  fst (Main.main (world [] 0)) = Raise (ExternalError "FileNotFoundError")
  /\ sf_log (snd (Main.main (world [] 0))) = [].
Proof. vm_compute. split; reflexivity. Qed.

Lemma main_keeps_other_files_witness :
  RandomSourceLaws /\
  ~ In "input_audio/a.wav"%string
      [ "generated_music/style_composed_1.wav"; "generated_music/style_composed_2.wav";
        "generated_music/style_composed_3.wav"; "generated_music/style_composed_4.wav";
        "generated_music/style_composed_5.wav"; "generated_music/style_composed_6.wav"
      ]%string /\
  files (snd (Main.main short_disk)) !! "input_audio/a.wav"%string
  = files short_disk !! "input_audio/a.wav"%string.
Proof.
  assert (Hnotin : ~ In "input_audio/a.wav"%string
      [ "generated_music/style_composed_1.wav"; "generated_music/style_composed_2.wav";
        "generated_music/style_composed_3.wav"; "generated_music/style_composed_4.wav";
        "generated_music/style_composed_5.wav"; "generated_music/style_composed_6.wav"
      ]%string).
  { simpl. intuition discriminate. }
  split; [exact counter_laws|]. split; [exact Hnotin|].
  apply (main_keeps_other_files short_disk "input_audio/a.wav"%string).
  - exact counter_laws.
  - exact Hnotin.
Defined.

(** The long file: the trimmer finds no silence in it. *)
Lemma drop_silence_repeat (n : nat) : drop_silence (repeat 5 n) = repeat 5 n.
Proof. by destruct n. Qed.

Lemma rev'_repeat (x : Z) (n : nat) : rev' (repeat x n) = repeat x n.
Proof.
  unfold rev'. rewrite rev_append_rev, app_nil_r.
  induction n as [|n IH]; [done|]. simpl. rewrite IH. symmetry. apply repeat_cons.
Qed.

Lemma disk_of_loaded (y : list Z) :
  fst (AudioManager.load_all (AudioManager.__init__ "input_audio" 22050) (disk_of y))
  = Ok [("a.wav"%string, rev' (drop_silence (rev' (drop_silence y))));
        ("b.wav"%string, [7; 8])].
Proof. vm_compute. reflexivity. Qed.

Lemma long_disk_loaded :
  fst (AudioManager.load_all (AudioManager.__init__ "input_audio" 22050) long_disk)
  = Ok [("a.wav"%string, long_wave); ("b.wav"%string, [7; 8])].
Proof.
  unfold long_disk. rewrite disk_of_loaded. unfold long_wave.
  by rewrite drop_silence_repeat, rev'_repeat, drop_silence_repeat, rev'_repeat.
Qed.

Lemma long_disk_pool :
  pool_of [("a.wav"%string, long_wave); ("b.wav"%string, [7; 8])] <> [].
Proof.
  pose (item := ("a.wav"%string, long_wave) : string * list (@sample toy_audio)).
  apply (pool_of_long _ item); [by left|].
  unfold py_len, item. cbn [snd]. unfold long_wave. rewrite repeat_length. lia.
Qed.

Lemma long_disk_transforms e :
  ~ Transformed (pool_of [("a.wav"%string, long_wave); ("b.wav"%string, [7; 8])]) 22050
      (Raise e).
Proof.
  apply toy_transforms_ok.
  eapply Forall_impl; [apply (@pool_of_lengths toy_audio)|].
  intros phrase Hlen ->. by vm_compute in Hlen.
Qed.

Lemma disk_of_makedirs (y : list Z) :
  makedirs "models" (files (disk_of y)) (os (disk_of y)) = Ok dirs1
  /\ makedirs "generated_music" (files (disk_of y)) dirs1 = Ok dirs2
  /\ makedirs "generated_music" (files (disk_of y)) dirs2 = Ok dirs3.
Proof. vm_compute. repeat split. Qed.

(** The writer accepts the six track paths once the directory is made. *)
Lemma dirs3_writes (i : Z) (out : list Z) (fs : gmap string (list Z * Z)) :
  In i [0; 1; 2; 3; 4; 5] ->
  write_error (track_path i) out 22050 fs dirs3 = None.
Proof. intros [<-|[<-|[<-|[<-|[<-|[<-|[]]]]]]]; reflexivity. Qed.

Lemma main_long_disk : fst (Main.main long_disk) = Ok tt.
Proof.
  destruct (disk_of_makedirs long_wave) as (Hmk1 & Hmk2 & Hmk3).
  apply (main_returns long_disk dirs1 dirs2 dirs3
           [("a.wav"%string, long_wave); ("b.wav"%string, [7; 8])]).
  - exact counter_laws.
  - exact Hmk1.
  - exact Hmk2.
  - exact long_disk_loaded.
  - exact Hmk3.
  - exact dirs3_writes.
  - exact long_disk_transforms.
Qed.

Lemma main_tracks_witness :
  RandomSourceLaws /\
  fst (AudioManager.load_all (AudioManager.__init__ "input_audio" 22050) long_disk)
    = Ok [("a.wav"%string, long_wave); ("b.wav"%string, [7; 8])] /\
  pool_of [("a.wav"%string, long_wave); ("b.wav"%string, [7; 8])] <> [] /\
  fst (Main.main long_disk) = Ok tt /\
  exists outs,
    sf_log (snd (Main.main long_disk)) = sf_log long_disk ++ outs
    /\ files (snd (Main.main long_disk)) = replay outs (files long_disk)
    /\ Forall2 (Track (pool_of [("a.wav"%string, long_wave); ("b.wav"%string, [7; 8])]))
         [0; 1; 2; 3; 4; 5] outs
    /\ map (fun o => o.1.1) outs
       = [ "generated_music/style_composed_1.wav"; "generated_music/style_composed_2.wav";
           "generated_music/style_composed_3.wav"; "generated_music/style_composed_4.wav";
           "generated_music/style_composed_5.wav"; "generated_music/style_composed_6.wav"
         ]%string.
Proof.
  split; [exact counter_laws|]. split; [exact long_disk_loaded|].
  split; [exact long_disk_pool|]. split; [exact main_long_disk|].
  apply (main_tracks long_disk [("a.wav"%string, long_wave); ("b.wav"%string, [7; 8])]).
  - exact counter_laws.
  - exact long_disk_loaded.
  - exact long_disk_pool.
  - exact main_long_disk.
Defined.

